(** * GenericToolbar and useFilterController

    A shallow embedding of the filter/search toolbar of the front-end
    template: the event handlers of [GenericToolbar] (the toolbar component),
    the key handler of [FilterFieldRenderer], and the operations of
    [useFilterController].

    The handlers are React closures over component state.  They are embedded
    as computations in a small state-and-trace monad: the state holds the
    [useState] cells, the [useRef] cell of the debounce timer and the
    runtime's table of live timeouts; the trace records the invocations of
    the parent's callbacks [onSearchChange] and [onFiltersChange], oldest
    first. *)

From Stdlib Require Import ZArith Ascii String List Bool Lia.
From stdpp Require Import base list strings gmap pretty.
Import ListNotations.
Open Scope string_scope.
Open Scope list_scope.

(** ** JavaScript values

    [ActiveFilter.value] has type [any].  The values a filter can hold are
    scalars, arrays and plain objects; they are represented as a tree.
    Numbers are restricted to integers, objects are association lists in
    insertion order with distinct keys. *)

Module Js.

#[warnings="-register-all"]
Inductive JsValue : Type :=
| JsUndefined
| JsNull
| JsBool (b : bool)
| JsNumber (n : Z)
| JsString (s : string)
| JsArray (elems : list JsValue)
| JsObject (props : list (string * JsValue)).

(** [Array.isArray(v)] *)
Definition isArray (v : JsValue) : bool :=
  match v with JsArray _ => true | _ => false end.

(** [typeof v === 'object'] (which holds of [null] and of arrays too) *)
Definition typeofObject (v : JsValue) : bool :=
  match v with JsNull | JsArray _ | JsObject _ => true | _ => false end.

(** Truthiness, as used by [||], [!!] and [if]. *)
Definition truthy (v : JsValue) : bool :=
  match v with
  | JsUndefined | JsNull => false
  | JsBool b => b
  | JsNumber n => negb (n =? 0)%Z
  | JsString s => negb (s =? EmptyString)%string
  | JsArray _ | JsObject _ => true
  end.

(** Property read [o.k]: [undefined] when the property is absent. *)
Fixpoint lookupProp (k : string) (props : list (string * JsValue)) : JsValue :=
  match props with
  | [] => JsUndefined
  | (k', v) :: rest => if (k =? k')%string then v else lookupProp k rest
  end.

Definition getProp (v : JsValue) (k : string) : JsValue :=
  match v with
  | JsObject props => lookupProp k props
  | _ => JsUndefined
  end.

(** [a || b] on values *)
Definition or (a b : JsValue) : JsValue := if truthy a then a else b.

(** *** [JSON.stringify] *)

Definition dquote : string := String "034"%char EmptyString.
Definition backslash : string := String "092"%char EmptyString.

Definition hexDigit (n : nat) : string :=
  String (nth n (list_ascii_of_string "0123456789abcdef") "0"%char) EmptyString.

(** Escaping of one character inside a JSON string literal. *)
Definition escapeChar (c : ascii) : string :=
  let n := nat_of_ascii c in
  if (n =? 34)%nat then backslash +:+ dquote
  else if (n =? 92)%nat then backslash +:+ backslash
  else if (n =? 8)%nat then backslash +:+ "b"
  else if (n =? 9)%nat then backslash +:+ "t"
  else if (n =? 10)%nat then backslash +:+ "n"
  else if (n =? 12)%nat then backslash +:+ "f"
  else if (n =? 13)%nat then backslash +:+ "r"
  else if (n <? 32)%nat then
    backslash +:+ "u00" +:+ hexDigit (n / 16) +:+ hexDigit (n mod 16)
  else String c EmptyString.

Fixpoint escapeString (s : string) : string :=
  match s with
  | EmptyString => EmptyString
  | String c rest => escapeChar c +:+ escapeString rest
  end.

Definition quote (s : string) : string := dquote +:+ escapeString s +:+ dquote.

(** Decimal rendering of an integral number. *)
Definition numberToString (n : Z) : string := pretty n.

(** [JSON.stringify(v)]: [None] stands for the result [undefined].  Inside
    an array an [undefined] element is written [null]; inside an object a
    property whose value is [undefined] is left out. *)
Fixpoint stringify (v : JsValue) : option string :=
  match v with
  | JsUndefined => None
  | JsNull => Some "null"
  | JsBool true => Some "true"
  | JsBool false => Some "false"
  | JsNumber n => Some (numberToString n)
  | JsString s => Some (quote s)
  | JsArray elems =>
      Some ("[" +:+
            String.concat ","
              (List.map (fun e => match stringify e with
                                  | Some s => s
                                  | None => "null"
                                  end) elems)
            +:+ "]")
  | JsObject props =>
      Some ("{" +:+
            String.concat ","
              (List.flat_map (fun kv => match stringify (snd kv) with
                                        | Some s => [quote (fst kv) +:+ ":" +:+ s]
                                        | None => []
                                        end) props)
            +:+ "}")
  end.

(** Equality of two [JSON.stringify] results under [===]. *)
Definition sameJSON (a b : option string) : bool :=
  match a, b with
  | Some x, Some y => (x =? y)%string
  | None, None => true
  | _, _ => false
  end.

(** *** String conversion, as performed by a template literal *)
Fixpoint toString (v : JsValue) : string :=
  match v with
  | JsUndefined => "undefined"
  | JsNull => "null"
  | JsBool true => "true"
  | JsBool false => "false"
  | JsNumber n => numberToString n
  | JsString s => s
  | JsArray elems =>
      String.concat ","
        (List.map (fun e => match e with
                            | JsUndefined | JsNull => EmptyString
                            | _ => toString e
                            end) elems)
  | JsObject _ => "[object Object]"
  end.

End Js.
Export Js.

(** ** Data model ([types.ts]) *)

Inductive FilterFieldType : Type :=
| TText | TSelect | TMultiselect | TDate | TCheckbox | TNumber | TNumberrange
| TBoolean.

(** [FilterOperator]: the union of the operator literals
    ['regex' | 'eq' | 'lt' | 'lte' | 'gt' | 'gte' | 'in' | 'all' | 'nin' |
     'exists' | 'on' | '>=' | '<=' | 'today' | 'between']. *)
Inductive FilterOperator : Type :=
| OpRegex | OpEq | OpLt | OpLte | OpGt | OpGte | OpIn | OpAll | OpNin
| OpExists | OpOn | OpGe | OpLe | OpToday | OpBetween.

Definition operatorLiteral (o : FilterOperator) : string :=
  match o with
  | OpRegex => "regex" | OpEq => "eq" | OpLt => "lt" | OpLte => "lte"
  | OpGt => "gt" | OpGte => "gte" | OpIn => "in" | OpAll => "all"
  | OpNin => "nin" | OpExists => "exists" | OpOn => "on" | OpGe => ">="
  | OpLe => "<=" | OpToday => "today" | OpBetween => "between"
  end.

#[global] Instance FilterFieldType_eq_dec : EqDecision FilterFieldType.
Proof. solve_decision. Defined.

#[global] Instance FilterOperator_eq_dec : EqDecision FilterOperator.
Proof. solve_decision. Defined.

Record OperatorOption : Type := {
  op_value : FilterOperator;
  op_label : string
}.

(** [AvailableFilter].  The fields [options] and [placeholder] only feed the
    rendering and are left out.  An optional field is an [option]. *)
Record AvailableFilter : Type := {
  fd_id : string;
  fd_label : string;
  fd_type : FilterFieldType;
  fd_operators : option (list OperatorOption);
  fd_defaultOperator : option FilterOperator
}.

(** [ActiveFilter].  The operator is declared a [FilterOperator], but the
    handlers store [operators[0]?.value] under a cast, which is [undefined]
    for a definition with an empty operator list: hence the [option]. *)
Record ActiveFilter : Type := {
  af_id : string;
  af_filterId : string;
  af_operator : option FilterOperator;
  af_value : JsValue
}.

(** [{ ...f, value }] and [{ ...f, operator }] *)
Definition withValue (f : ActiveFilter) (v : JsValue) : ActiveFilter :=
  {| af_id := af_id f; af_filterId := af_filterId f;
     af_operator := af_operator f; af_value := v |}.

Definition withOperator (f : ActiveFilter) (o : option FilterOperator)
  : ActiveFilter :=
  {| af_id := af_id f; af_filterId := af_filterId f;
     af_operator := o; af_value := af_value f |}.

(** The object an [ActiveFilter] is at run time, with its properties in the
    order in which the handlers write them. *)
Definition filterObject (f : ActiveFilter) : JsValue :=
  JsObject [ ("id", JsString (af_id f));
             ("filterId", JsString (af_filterId f));
             ("operator", match af_operator f with
                          | Some o => JsString (operatorLiteral o)
                          | None => JsUndefined
                          end);
             ("value", af_value f) ].

Definition filtersArray (l : list ActiveFilter) : JsValue :=
  JsArray (List.map filterObject l).

Definition mkOp (o : FilterOperator) (l : string) : OperatorOption :=
  {| op_value := o; op_label := l |}.

(** The operator catalogue. *)
Definition DEFAULT_OPERATORS (t : FilterFieldType) : list OperatorOption :=
  match t with
  | TText => [ mkOp OpRegex "Contains"; mkOp OpEq "Equals" ]
  | TNumber => [ mkOp OpEq "Equals"; mkOp OpGt "Greater than";
                 mkOp OpGte "Greater or equal"; mkOp OpLt "Less than";
                 mkOp OpLte "Less or equal" ]
  | TNumberrange => [ mkOp OpGte "Between" ]
  | TSelect => [ mkOp OpEq "Equals" ]
  | TMultiselect => [ mkOp OpIn "Includes any"; mkOp OpAll "Includes all";
                      mkOp OpNin "Excludes" ]
  | TBoolean => [ mkOp OpEq "Equals"; mkOp OpExists "Exists" ]
  | TCheckbox => [ mkOp OpEq "Equals" ]
  | TDate => [ mkOp OpToday "Today"; mkOp OpOn "On date";
               mkOp OpGe "On or after"; mkOp OpLe "On or before";
               mkOp OpBetween "Between dates" ]
  end.

(** [operator === 'today'] *)
Definition isToday (o : option FilterOperator) : bool :=
  bool_decide (o = Some OpToday).

(** [a === b] on operators *)
Definition sameOperator (a b : option FilterOperator) : bool :=
  bool_decide (a = b).

(** ** GenericToolbar *)

Module Toolbar.

Inductive FilterMode : Type := Basic | Advanced.

(** The props the handlers read.  A callback prop is optional and is only
    ever invoked ([onSearchChange?.(v)]), so it is represented by whether the
    parent supplied it; its invocations are recorded in the trace. *)
Record Props : Type := {
  searchValue : string;
  onSearchChange : bool;
  availableFilters : list AvailableFilter;
  activeFilters : list ActiveFilter;
  onFiltersChange : bool
}.

Inductive Call : Type :=
| SearchChange (value : string)
| FiltersChange (filters : list ActiveFilter).

(** A live timeout of the runtime.  The only callback ever scheduled is
    [() => onSearchChange?.(value)]; it is stored as the invocations it makes
    when it runs. *)
Record Timer : Type := {
  tm_id : nat;
  tm_delay : nat;
  tm_callback : list Call
}.

Record State : Type := {
  filterMode : FilterMode;
  localSearchValue : string;
  pendingFilters : list ActiveFilter;
  searchDebounceRef : option nat;  (* [searchDebounceRef.current] *)
  timeouts : list Timer;           (* scheduled and not yet run or cleared *)
  nextTimeout : nat                (* the next timeout handle; handles are > 0 *)
}.

(** State after mounting: [useState(searchValue)], [useState(activeFilters)],
    [useRef(null)]. *)
Definition mount (p : Props) : State :=
  {| filterMode := Basic;
     localSearchValue := searchValue p;
     pendingFilters := activeFilters p;
     searchDebounceRef := None;
     timeouts := [];
     nextTimeout := 1 |}.

(** *** The monad of handlers: state and trace of callback invocations *)

Definition M (A : Type) : Type := State -> A * State * list Call.

#[global] Instance M_ret : MRet M := fun A x s => (x, s, []).

#[global] Instance M_bind : MBind M := fun A B f m s =>
  let '(x, s1, t1) := m s in
  let '(y, s2, t2) := f x s1 in
  (y, s2, t1 ++ t2).

Definition skip : M unit := mret tt.

(** The values of the current render, which the handler closes over. *)
Definition render : M State := fun s => (s, s, []).

Definition setFilterMode (m : FilterMode) : M unit := fun s =>
  (tt, {| filterMode := m;
          localSearchValue := localSearchValue s;
          pendingFilters := pendingFilters s;
          searchDebounceRef := searchDebounceRef s;
          timeouts := timeouts s;
          nextTimeout := nextTimeout s |}, []).

Definition setLocalSearchValue (v : string) : M unit := fun s =>
  (tt, {| filterMode := filterMode s;
          localSearchValue := v;
          pendingFilters := pendingFilters s;
          searchDebounceRef := searchDebounceRef s;
          timeouts := timeouts s;
          nextTimeout := nextTimeout s |}, []).

Definition setPendingFilters (l : list ActiveFilter) : M unit := fun s =>
  (tt, {| filterMode := filterMode s;
          localSearchValue := localSearchValue s;
          pendingFilters := l;
          searchDebounceRef := searchDebounceRef s;
          timeouts := timeouts s;
          nextTimeout := nextTimeout s |}, []).

(** [searchDebounceRef.current] and [searchDebounceRef.current = id] *)
Definition readRef : M (option nat) := fun s => (searchDebounceRef s, s, []).

Definition writeRef (r : option nat) : M unit := fun s =>
  (tt, {| filterMode := filterMode s;
          localSearchValue := localSearchValue s;
          pendingFilters := pendingFilters s;
          searchDebounceRef := r;
          timeouts := timeouts s;
          nextTimeout := nextTimeout s |}, []).

(** [clearTimeout(id)]: the timeout, if still scheduled, will not run. *)
Definition clearTimeout (id : nat) : M unit := fun s =>
  (tt, {| filterMode := filterMode s;
          localSearchValue := localSearchValue s;
          pendingFilters := pendingFilters s;
          searchDebounceRef := searchDebounceRef s;
          timeouts := List.filter (fun t => negb (Nat.eqb (tm_id t) id)) (timeouts s);
          nextTimeout := nextTimeout s |}, []).

(** [setTimeout(callback, delay)]: returns a fresh handle. *)
Definition setTimeout (callback : list Call) (delay : nat) : M nat := fun s =>
  let id := nextTimeout s in
  (id, {| filterMode := filterMode s;
          localSearchValue := localSearchValue s;
          pendingFilters := pendingFilters s;
          searchDebounceRef := searchDebounceRef s;
          timeouts := timeouts s ++
                      [{| tm_id := id; tm_delay := delay;
                          tm_callback := callback |}];
          nextTimeout := S id |}, []).

(** The runtime runs a scheduled timeout once its delay has elapsed. *)
Definition runTimeout (id : nat) : M unit := fun s =>
  match List.find (fun t => Nat.eqb (tm_id t) id) (timeouts s) with
  | Some t =>
      (tt, {| filterMode := filterMode s;
              localSearchValue := localSearchValue s;
              pendingFilters := pendingFilters s;
              searchDebounceRef := searchDebounceRef s;
              timeouts := List.filter (fun t => negb (Nat.eqb (tm_id t) id)) (timeouts s);
              nextTimeout := nextTimeout s |}, tm_callback t)
  | None => (tt, s, [])
  end.

Definition invoke (c : Call) : M unit := fun s => (tt, s, [c]).

(** [onSearchChange?.(v)] and [onFiltersChange?.(l)] *)
Definition callOnSearchChange (p : Props) (v : string) : M unit :=
  if onSearchChange p then invoke (SearchChange v) else skip.

Definition callOnFiltersChange (p : Props) (l : list ActiveFilter) : M unit :=
  if onFiltersChange p then invoke (FiltersChange l) else skip.

(** [if (searchDebounceRef.current) clearTimeout(searchDebounceRef.current)] *)
Definition clearDebounce : M unit :=
  r ← readRef;
  match r with
  | Some id => clearTimeout id
  | None => skip
  end.

(** *** Derived values of a render *)

(** [availableFilters.find(f => f.id === filterId)] *)
Definition findDef (p : Props) (filterId : string) : option AvailableFilter :=
  List.find (fun f => (fd_id f =? filterId)%string) (availableFilters p).

(** [filterDef.operators || DEFAULT_OPERATORS[filterDef.type]] (an array,
    even an empty one, is truthy) *)
Definition operatorsOf (d : AvailableFilter) : list OperatorOption :=
  match fd_operators d with
  | Some ops => ops
  | None => DEFAULT_OPERATORS (fd_type d)
  end.

(** [filterDef.defaultOperator || operators[0]?.value] (every operator
    literal is a non-empty string, hence truthy) *)
Definition defaultOperatorOf (d : AvailableFilter) : option FilterOperator :=
  match fd_defaultOperator d with
  | Some o => Some o
  | None => match operatorsOf d with
            | o :: _ => Some (op_value o)
            | [] => None
            end
  end.

Definition isTextBased (t : FilterFieldType) : bool :=
  match t with
  | TText | TNumber | TNumberrange => true
  | _ => false
  end.

Definition hasPendingTextFilters (p : Props) (r : State) : bool :=
  existsb (fun pf =>
    match findDef p (af_filterId pf) with
    | None => false
    | Some filterDef =>
        if negb (isTextBased (fd_type filterDef)) then false
        else
          let appliedFilter :=
            List.find (fun af => (af_filterId af =? af_filterId pf)%string)
                      (activeFilters p) in
          negb (sameJSON (stringify (af_value pf))
                         (stringify (match appliedFilter with
                                     | Some af => af_value af
                                     | None => JsUndefined
                                     end)))
    end) (pendingFilters r).

Definition hasUnappliedSearchChange (p : Props) (r : State) : bool :=
  negb (localSearchValue r =? searchValue p)%string.

Definition hasUnappliedFilterChanges (p : Props) (r : State) : bool :=
  negb (sameJSON (stringify (filtersArray (pendingFilters r)))
                 (stringify (filtersArray (activeFilters p)))).

Definition hasUnappliedTextChanges (p : Props) (r : State) : bool :=
  hasUnappliedSearchChange p r || hasPendingTextFilters p r.


(** The predicate of the [activeFilterCount] filter. *)
Definition countsAsActive (f : ActiveFilter) : bool :=
  if isToday (af_operator f) then true
  else
    let v := af_value f in
    if match v with
       | JsNull | JsUndefined | JsString EmptyString => true
       | _ => false
       end then false
    else if isArray v && match v with
                         | JsArray elems => (length elems =? 0)%nat
                         | _ => false
                         end then false
    else if typeofObject v && negb (isArray v) then
      truthy (or (or (or (getProp v "from") (getProp v "to"))
                     (getProp v "min")) (getProp v "max"))
    else true.

Definition activeFilterCount (p : Props) : nat :=
  length (List.filter countsAsActive (activeFilters p)).

(** *** Event handlers

    Each handler starts from the values of the render it was created in
    ([render]); state setters take effect for the next render. *)

(** Resetting one filter's operator to its definition's default; a filter
    whose definition is missing is returned as it is. *)
Definition resetOperator (p : Props) (filter : ActiveFilter) : ActiveFilter :=
  match findDef p (af_filterId filter) with
  | None => filter
  | Some filterDef => withOperator filter (defaultOperatorOf filterDef)
  end.

Definition handleFilterModeChange (p : Props) (mode : FilterMode) : M unit :=
  r ← render;
  setFilterMode mode ;;
  match mode with
  | Basic =>
      let updatedFilters := List.map (resetOperator p) (pendingFilters r) in
      setPendingFilters updatedFilters ;;
      callOnFiltersChange p updatedFilters
  | Advanced => skip
  end.

(** The scheduled callback [() => onSearchChange?.(value)]. *)
Definition debounced (p : Props) (value : string) : list Call :=
  if onSearchChange p then [SearchChange value] else [].

Definition handleSearchInputChange (p : Props) (value : string) : M unit :=
  setLocalSearchValue value ;;
  clearDebounce ;;
  id ← setTimeout (debounced p value) 800;
  writeRef (Some id).

Definition handleSearchKeyDown (p : Props) (key : string) : M unit :=
  r ← render;
  if (key =? "Enter")%string then
    clearDebounce ;;
    callOnSearchChange p (localSearchValue r)
  else skip.

Definition handleApplyFilters (p : Props) : M unit :=
  r ← render;
  (if hasUnappliedSearchChange p r then
     clearDebounce ;;
     callOnSearchChange p (localSearchValue r)
   else skip) ;;
  (if hasUnappliedFilterChanges p r then
     callOnFiltersChange p (pendingFilters r)
   else skip).

(** The cleanup of the mount effect, run on unmount. *)
Definition unmount : M unit := clearDebounce.

(** [now] is the value of [Date.now()]. *)
Definition handleAddFilter (p : Props) (now : Z) (filterId : string) : M unit :=
  r ← render;
  if (filterId =? EmptyString)%string then skip
  else
    match findDef p filterId with
    | None => skip
    | Some filterDef =>
        let newFilter :=
          {| af_id := "filter-" +:+ numberToString now;
             af_filterId := filterId;
             af_operator := defaultOperatorOf filterDef;
             af_value := JsString EmptyString |} in
        setPendingFilters (pendingFilters r ++ [newFilter])
    end.

Definition handleRemoveFilter (p : Props) (filterId : string) : M unit :=
  r ← render;
  let updatedFilters :=
    List.filter (fun f => negb (af_id f =? filterId)%string) (pendingFilters r) in
  setPendingFilters updatedFilters ;;
  callOnFiltersChange p updatedFilters.

Definition handleFilterValueChange (p : Props) (filterId : string)
    (value : JsValue) (filterType : FilterFieldType) : M unit :=
  r ← render;
  let updatedFilters :=
    List.map (fun f => if (af_id f =? filterId)%string then withValue f value else f)
             (pendingFilters r) in
  setPendingFilters updatedFilters ;;
  if negb (bool_decide (filterType = TText)) then
    callOnFiltersChange p updatedFilters ;;
    if hasUnappliedSearchChange p r then
      clearDebounce ;;
      callOnSearchChange p (localSearchValue r)
    else skip
  else skip.

Definition handleOperatorChange (p : Props) (filterId : string)
    (operator : FilterOperator) : M unit :=
  r ← render;
  let updatedFilters :=
    List.map (fun f => if (af_id f =? filterId)%string
                       then withOperator f (Some operator) else f)
             (pendingFilters r) in
  setPendingFilters updatedFilters ;;
  callOnFiltersChange p updatedFilters ;;
  if hasUnappliedSearchChange p r then
    clearDebounce ;;
    callOnSearchChange p (localSearchValue r)
  else skip.

Definition handleClearAllFilters (p : Props) : M unit :=
  setPendingFilters [] ;;
  setLocalSearchValue EmptyString ;;
  callOnSearchChange p EmptyString ;;
  callOnFiltersChange p [].

(** [FilterFieldRenderer]'s [handleKeyDown], attached to the inputs of the
    types text, number and numberrange; the toolbar passes
    [handleApplyFilters] as [onEnterKey]. *)
Definition handleKeyDown (onEnterKey : option (M unit)) (key : string) : M unit :=
  match onEnterKey with
  | Some k => if (key =? "Enter")%string then k else skip
  | None => skip
  end.

(** The effects that copy a changed prop into the local state. *)
Definition syncSearchValue (p : Props) : M unit :=
  setLocalSearchValue (searchValue p).

Definition syncActiveFilters (p : Props) : M unit :=
  setPendingFilters (activeFilters p).

(** *** Events of a mounted toolbar *)

Inductive Event : Type :=
| SearchInput (value : string)
| SearchKey (key : string)
| ApplyClick
| FieldKey (key : string)
| FieldChange (row : ActiveFilter) (value : JsValue)
| OperatorSelect (row : ActiveFilter) (operator : FilterOperator)
| RemoveClick (row : ActiveFilter)
| AddSelect (now : Z) (filterId : string)
| ClearAllClick
| ModeClick (mode : FilterMode)
| TimeoutElapsed (id : nat)
| SearchValueChanged
| ActiveFiltersChanged.

(** What the render wires each event to.  The row of a pending filter is
    rendered only when its definition is found. *)
Definition dispatch (p : Props) (e : Event) : M unit :=
  match e with
  | SearchInput value => handleSearchInputChange p value
  | SearchKey key => handleSearchKeyDown p key
  | ApplyClick => handleApplyFilters p
  | FieldKey key => handleKeyDown (Some (handleApplyFilters p)) key
  | FieldChange row value =>
      match findDef p (af_filterId row) with
      | Some filterDef =>
          handleFilterValueChange p (af_id row) value (fd_type filterDef)
      | None => skip
      end
  | OperatorSelect row operator =>
      match findDef p (af_filterId row) with
      | Some _ => handleOperatorChange p (af_id row) operator
      | None => skip
      end
  | RemoveClick row =>
      match findDef p (af_filterId row) with
      | Some _ => handleRemoveFilter p (af_id row)
      | None => skip
      end
  | AddSelect now filterId => handleAddFilter p now filterId
  | ClearAllClick => handleClearAllFilters p
  | ModeClick mode => handleFilterModeChange p mode
  | TimeoutElapsed id => runTimeout id
  | SearchValueChanged => syncSearchValue p
  | ActiveFiltersChanged => syncActiveFilters p
  end.

(** A run: each event is handled under the props of the render it occurs in. *)
Fixpoint run (evs : list (Props * Event)) : M unit :=
  match evs with
  | [] => skip
  | (p, e) :: rest => dispatch p e ;; run rest
  end.

(** State and trace of a computation. *)
Definition stateAfter {A} (m : M A) (s : State) : State := snd (fst (m s)).
Definition callsOf {A} (m : M A) (s : State) : list Call := snd (m s).

End Toolbar.

(** ** useFilterController *)

Module Controller.

(** One entry of [FilterControllerConfig.representedFilters]. *)
Record RepresentedFilter : Type := {
  rf_filterId : string;
  rf_operator : FilterOperator;
  rf_value : JsValue
}.

Record FilterControllerConfig : Type := {
  representedFilters : list RepresentedFilter
}.

(** [FilterControllerConnection]: the applied list.  The callback
    [onFilterChange] is mandatory; an operation returns the arguments of the
    invocations it makes, oldest first. *)
Record FilterControllerConnection : Type := {
  activeFilters : list ActiveFilter
}.

(** [af.filterId === rf.filterId && af.operator === rf.operator &&
     JSON.stringify(af.value) === JSON.stringify(rf.value)] *)
Definition matches (rf : RepresentedFilter) (af : ActiveFilter) : bool :=
  (af_filterId af =? rf_filterId rf)%string
  && sameOperator (af_operator af) (Some (rf_operator rf))
  && sameJSON (stringify (af_value af)) (stringify (rf_value rf)).

Definition isActive (config : FilterControllerConfig)
    (connection : FilterControllerConnection) : bool :=
  if (length (representedFilters config) =? 0)%nat then false
  else
    existsb (fun rf => existsb (fun af => matches rf af) (activeFilters connection))
            (representedFilters config).

(** [new Set(representedFilters.map(rf => rf.filterId))] *)
Definition filterIds (config : FilterControllerConfig) : gset string :=
  list_to_set (List.map rf_filterId (representedFilters config)).

(** [activeFilters.filter(af => !filterIds.has(af.filterId))] *)
Definition otherFilters (config : FilterControllerConfig)
    (connection : FilterControllerConnection) : list ActiveFilter :=
  List.filter (fun af => negb (bool_decide (af_filterId af ∈ filterIds config)))
              (activeFilters connection).

(** The filter built for the represented entry at position [index];
    [now] is the value of [Date.now()]. *)
Definition newFilter (now : Z) (index : nat) (rf : RepresentedFilter)
  : ActiveFilter :=
  {| af_id := rf_filterId rf +:+ "-" +:+ toString (rf_value rf) +:+ "-"
              +:+ numberToString now +:+ "-"
              +:+ numberToString (Z.of_nat index);
     af_filterId := rf_filterId rf;
     af_operator := Some (rf_operator rf);
     af_value := rf_value rf |}.

Definition applyFilters (now : Z) (config : FilterControllerConfig)
    (connection : FilterControllerConnection) : list (list ActiveFilter) :=
  let newFilters := imap (newFilter now) (representedFilters config) in
  [ otherFilters config connection ++ newFilters ].

Definition removeFilters (config : FilterControllerConfig)
    (connection : FilterControllerConnection) : list (list ActiveFilter) :=
  [ otherFilters config connection ].

Definition toggleFilters (now : Z) (config : FilterControllerConfig)
    (connection : FilterControllerConnection) : list (list ActiveFilter) :=
  if isActive config connection then removeFilters config connection
  else applyFilters now config connection.

(** Number of filters of a list that refer to the definition [filterId]. *)
Definition countFor (filterId : string) (l : list ActiveFilter) : nat :=
  length (List.filter (fun af => (af_filterId af =? filterId)%string) l).

(** Number of represented entries that name the definition [filterId]. *)
Definition countRepresented (filterId : string) (config : FilterControllerConfig)
  : nat :=
  length (List.filter (fun rf => (rf_filterId rf =? filterId)%string)
                      (representedFilters config)).

(** [af] carries the represented entry [rf]: its definition, operator and
    value. *)
Definition freshFor (rf : RepresentedFilter) (af : ActiveFilter) : Prop :=
  af_filterId af = rf_filterId rf
  /\ af_operator af = Some (rf_operator rf)
  /\ af_value af = rf_value rf.

End Controller.

(** ** Observations

    What the properties below say about a trace or a state. *)

Module Observations.
Import Toolbar.

(** The arguments of the [onFiltersChange] and of the [onSearchChange]
    invocations of a trace, in order. *)
Definition filtersCalls (t : list Call) : list (list ActiveFilter) :=
  List.flat_map (fun c => match c with FiltersChange l => [l] | _ => [] end) t.

Definition searchCalls (t : list Call) : list string :=
  List.flat_map (fun c => match c with SearchChange v => [v] | _ => [] end) t.

(** No [onFiltersChange] invocation of the trace precedes an
    [onSearchChange] invocation. *)
Fixpoint searchFirst (t : list Call) : bool :=
  match t with
  | [] => true
  | FiltersChange _ :: rest =>
      (length (searchCalls rest) =? 0)%nat && searchFirst rest
  | SearchChange _ :: rest => searchFirst rest
  end.

(** Every live timeout is the one the ref points to, and there is at most
    one; its callback only invokes [onSearchChange]. *)
Definition singleTimer (s : State) : Prop :=
  match timeouts s with
  | [] => True
  | [t] => searchDebounceRef s = Some (tm_id t) /\ filtersCalls (tm_callback t) = []
  | _ => False
  end.

(** The pending list after a value change and after an operator change. *)
Definition valueChanged (filterId : string) (value : JsValue)
    (l : list ActiveFilter) : list ActiveFilter :=
  List.map (fun f => if (af_id f =? filterId)%string then withValue f value else f) l.

Definition operatorChanged (filterId : string) (operator : FilterOperator)
    (l : list ActiveFilter) : list ActiveFilter :=
  List.map (fun f => if (af_id f =? filterId)%string
                     then withOperator f (Some operator) else f) l.

(** The [onSearchChange] invocation that flushes a pending search edit. *)
Definition searchFlush (p : Props) (s : State) : list Call :=
  if hasUnappliedSearchChange p s then [SearchChange (localSearchValue s)] else [].

(** [filterDef] is what [availableFilters.find(f => f.id === filterId)]
    returns: the first definition of the list with that id. *)
Definition firstDefinition (p : Props) (filterId : string)
    (filterDef : AvailableFilter) : Prop :=
  exists before after,
    availableFilters p = before ++ filterDef :: after
    /\ fd_id filterDef = filterId
    /\ Forall (fun d => fd_id d <> filterId) before.

(** [updated] is [original] with its operator reset: identity, definition
    and value are those of [original]; when no definition has the filter's
    [filterId] the operator is kept; otherwise, for the first such
    definition, the operator is the definition's [defaultOperator] when it
    names one, else the first of the definition's own [operators] when it
    lists some ([undefined] for an empty list), else the first operator of
    the catalogue entry of the definition's type. *)
Definition operatorReset (p : Props) (original updated : ActiveFilter) : Prop :=
  af_id updated = af_id original
  /\ af_filterId updated = af_filterId original
  /\ af_value updated = af_value original
  /\ (Forall (fun d => fd_id d <> af_filterId original) (availableFilters p) ->
      af_operator updated = af_operator original)
  /\ forall filterDef,
       firstDefinition p (af_filterId original) filterDef ->
       match fd_defaultOperator filterDef, fd_operators filterDef with
       | Some o, _ => af_operator updated = Some o
       | None, Some (first :: _) => af_operator updated = Some (op_value first)
       | None, Some [] => af_operator updated = None
       | None, None =>
           af_operator updated
           = option_map op_value (head (DEFAULT_OPERATORS (fd_type filterDef)))
       end.

(** [updated] is [original] after a value change aimed at [filterId]: the
    filter with that identity carries [value], any other filter keeps its
    value; identity, definition and operator are kept. *)
Definition valueEdit (filterId : string) (value : JsValue)
    (original updated : ActiveFilter) : Prop :=
  af_id updated = af_id original
  /\ af_filterId updated = af_filterId original
  /\ af_operator updated = af_operator original
  /\ (af_id original = filterId -> af_value updated = value)
  /\ (af_id original <> filterId -> af_value updated = af_value original).

(** Likewise after an operator change aimed at [filterId]. *)
Definition operatorEdit (filterId : string) (operator : FilterOperator)
    (original updated : ActiveFilter) : Prop :=
  af_id updated = af_id original
  /\ af_filterId updated = af_filterId original
  /\ af_value updated = af_value original
  /\ (af_id original = filterId -> af_operator updated = Some operator)
  /\ (af_id original <> filterId -> af_operator updated = af_operator original).

(** The specification's reading of the badge, to be compared with
    [countsAsActive]: a filter is meaningful when its operator is [today],
    or when its value is none of: the empty string, null, undefined, an
    empty array, an all-empty range object.  A range object is all-empty
    when none of its fields from, to, min, max is set, a field being set
    when it is present and holds neither null nor the empty string. *)
Definition blank (v : JsValue) : bool :=
  match v with
  | JsUndefined | JsNull | JsString EmptyString => true
  | _ => false
  end.

Definition fieldSet (v : JsValue) (k : string) : bool := negb (blank (getProp v k)).

Definition meaningful (f : ActiveFilter) : bool :=
  match af_operator f with
  | Some OpToday => true
  | _ =>
      match af_value f with
      | JsString EmptyString | JsNull | JsUndefined | JsArray [] => false
      | JsObject _ =>
          existsb (fieldSet (af_value f)) ["from"; "to"; "min"; "max"]
      | _ => true
      end
  end.

Definition preserves {A} (m : M A) : Prop :=
  forall s, singleTimer s -> singleTimer (stateAfter m s).

(** Every filter of [l] other than the one with identity [filterId] is in
    [committed], as it is. *)
Definition othersKept (filterId : string) (l committed : list ActiveFilter)
  : Prop :=
  forall f, In f l -> af_id f <> filterId -> In f committed.

End Observations.

(** ** Sample data *)

Module ToolbarSamples.
Import Toolbar.

Definition nameDef : AvailableFilter :=
  {| fd_id := "name"; fd_label := "Name"; fd_type := TText;
     fd_operators := None; fd_defaultOperator := None |}.

Definition statusDef : AvailableFilter :=
  {| fd_id := "status"; fd_label := "Status"; fd_type := TSelect;
     fd_operators := None; fd_defaultOperator := None |}.

Definition ageDef : AvailableFilter :=
  {| fd_id := "age"; fd_label := "Age"; fd_type := TNumber;
     fd_operators := None; fd_defaultOperator := None |}.

Definition createdDef : AvailableFilter :=
  {| fd_id := "created"; fd_label := "Created"; fd_type := TDate;
     fd_operators := None; fd_defaultOperator := Some OpOn |}.

Definition nameFilter : ActiveFilter :=
  {| af_id := "filter-1"; af_filterId := "name";
     af_operator := Some OpRegex; af_value := JsString "al" |}.

Definition statusFilter : ActiveFilter :=
  {| af_id := "filter-2"; af_filterId := "status";
     af_operator := Some OpEq; af_value := JsArray [JsString "open"] |}.

Definition ageFilter : ActiveFilter :=
  {| af_id := "filter-3"; af_filterId := "age";
     af_operator := Some OpGt; af_value := JsNumber 30 |}.

Definition createdFilter : ActiveFilter :=
  {| af_id := "filter-4"; af_filterId := "created";
     af_operator := Some OpBetween;
     af_value := JsObject [("from", JsString "2024-01-01T00:00:00.000Z");
                           ("to", JsString EmptyString)] |}.

Definition sampleProps : Props :=
  {| searchValue := EmptyString;
     onSearchChange := true;
     availableFilters := [nameDef; statusDef; ageDef; createdDef];
     activeFilters := [nameFilter; statusFilter; ageFilter; createdFilter];
     onFiltersChange := true |}.

(** The state after typing [abc] into the search box of a freshly mounted
    toolbar: the local text is [abc], the applied text is still empty, and
    one debounce timeout is scheduled. *)
Definition typedState : State :=
  stateAfter (handleSearchInputChange sampleProps "abc") (mount sampleProps).

(** The sample state in advanced mode, where the age filter uses "greater
    than" and the date filter "between". *)
Definition advancedState : State :=
  stateAfter (handleFilterModeChange sampleProps Advanced) (mount sampleProps).

(** The applied list [{operator:'today'}, {value:''}, {value:['a']}]: a
    property the literal leaves out is [undefined]. *)
Definition todayFilter : ActiveFilter :=
  {| af_id := "filter-5"; af_filterId := "created";
     af_operator := Some OpToday; af_value := JsUndefined |}.

Definition blankFilter : ActiveFilter :=
  {| af_id := "filter-6"; af_filterId := "name";
     af_operator := None; af_value := JsString EmptyString |}.

Definition tagFilter : ActiveFilter :=
  {| af_id := "filter-7"; af_filterId := "status";
     af_operator := None; af_value := JsArray [JsString "a"] |}.

Definition badgeProps : Props :=
  {| searchValue := EmptyString; onSearchChange := true;
     availableFilters := [nameDef; statusDef; ageDef; createdDef];
     activeFilters := [todayFilter; blankFilter; tagFilter];
     onFiltersChange := true |}.

(** The props after the parent has taken the cleared search and filters. *)
Definition clearedProps : Props :=
  {| searchValue := EmptyString; onSearchChange := true;
     availableFilters := [nameDef; statusDef; ageDef; createdDef];
     activeFilters := [];
     onFiltersChange := true |}.

(** A definition that lists its own operators and names no default. *)
Definition priorityDef : AvailableFilter :=
  {| fd_id := "priority"; fd_label := "Priority"; fd_type := TSelect;
     fd_operators := Some [ mkOp OpIn "Any of"; mkOp OpEq "Equals" ];
     fd_defaultOperator := None |}.

Definition rangeDef : AvailableFilter :=
  {| fd_id := "salary"; fd_label := "Salary"; fd_type := TNumberrange;
     fd_operators := None; fd_defaultOperator := None |}.

Definition priorityFilter : ActiveFilter :=
  {| af_id := "filter-8"; af_filterId := "priority";
     af_operator := Some OpEq; af_value := JsArray [JsString "high"] |}.

(** A pending filter whose definition is not among the available ones. *)
Definition orphanFilter : ActiveFilter :=
  {| af_id := "filter-9"; af_filterId := "gone";
     af_operator := Some OpNin; af_value := JsString "x" |}.

Definition customProps : Props :=
  {| searchValue := EmptyString;
     onSearchChange := true;
     availableFilters := [nameDef; priorityDef; ageDef; createdDef];
     activeFilters := [priorityFilter; ageFilter; createdFilter; orphanFilter];
     onFiltersChange := true |}.

(** A salary range as the Min input leaves it after [0] is typed into a
    freshly added filter, the same range with minimum 5, and a number
    filter with value 0. *)
Definition zeroRangeFilter : ActiveFilter :=
  {| af_id := "filter-1700000000000"; af_filterId := "salary";
     af_operator := Some OpGte;
     af_value := JsObject [("min", JsNumber 0); ("max", JsString EmptyString)] |}.

Definition fiveRangeFilter : ActiveFilter :=
  {| af_id := "filter-11"; af_filterId := "salary";
     af_operator := Some OpGte;
     af_value := JsObject [("min", JsNumber 5); ("max", JsString EmptyString)] |}.

Definition zeroNumberFilter : ActiveFilter :=
  {| af_id := "filter-12"; af_filterId := "age";
     af_operator := Some OpEq; af_value := JsNumber 0 |}.

(** The toolbar of [customProps] in advanced mode. *)
Definition customAdvanced : State :=
  stateAfter (handleFilterModeChange customProps Advanced) (mount customProps).

(** A toolbar with no applied filter, and the row of a salary filter just
    added to it. *)
Definition emptyRangeProps : Props :=
  {| searchValue := EmptyString;
     onSearchChange := true;
     availableFilters := [rangeDef; ageDef];
     activeFilters := [];
     onFiltersChange := true |}.

Definition addedRangeRow : ActiveFilter :=
  {| af_id := "filter-1700000000000"; af_filterId := "salary";
     af_operator := Some OpGte; af_value := JsString EmptyString |}.

Definition zeroRangeProps : Props :=
  {| searchValue := EmptyString;
     onSearchChange := true;
     availableFilters := [rangeDef; ageDef];
     activeFilters := [zeroRangeFilter];
     onFiltersChange := true |}.

End ToolbarSamples.

Module ControllerSamples.
Import Controller.

Definition statusOpen : RepresentedFilter :=
  {| rf_filterId := "status"; rf_operator := OpEq;
     rf_value := JsArray [JsString "open"] |}.

Definition statusClosed : RepresentedFilter :=
  {| rf_filterId := "status"; rf_operator := OpEq;
     rf_value := JsArray [JsString "closed"] |}.

Definition ageOver : RepresentedFilter :=
  {| rf_filterId := "age"; rf_operator := OpGt; rf_value := JsNumber 30 |}.

Definition openTab : FilterControllerConfig :=
  {| representedFilters := [statusOpen; ageOver] |}.

Definition openOrClosedTab : FilterControllerConfig :=
  {| representedFilters := [statusOpen; statusClosed] |}.

Definition appliedSample : FilterControllerConnection :=
  {| activeFilters :=
       [ {| af_id := "filter-1"; af_filterId := "name";
            af_operator := Some OpRegex; af_value := JsString "al" |};
         {| af_id := "filter-2"; af_filterId := "status";
            af_operator := Some OpEq;
            af_value := JsArray [JsString "closed"] |} ] |}.

End ControllerSamples.

(** ** Column visibility (the Columns menu of the toolbar) *)

Module Columns.

(** [visibleColumns.includes(id)] *)
Definition includes (visibleColumns : list string) (id : string) : bool :=
  existsb (fun c => (c =? id)%string) visibleColumns.

(** [visibleColumns.filter((id) => id !== column.id)] *)
Definition without (visibleColumns : list string) (columnId : string)
  : list string :=
  List.filter (fun id => negb (id =? columnId)%string) visibleColumns.

(** The list passed to [onVisibleColumnsChange] by a click on a row of the
    menu. *)
Definition rowClick (visibleColumns : list string) (columnId : string)
  : list string :=
  if includes visibleColumns columnId then without visibleColumns columnId
  else visibleColumns ++ [columnId].

(** The list passed by the row's checkbox, whose new state is [checked]. *)
Definition onCheckedChange (visibleColumns : list string) (columnId : string)
    (checked : bool) : list string :=
  if checked then visibleColumns ++ [columnId]
  else without visibleColumns columnId.

End Columns.

(** ** ExportDialog and the toolbar's export routing *)

Module ExportFlow.

Inductive ExportMethod : Type := Download | Email.

Inductive ExportType : Type := All | Results | Selection.

(** The dialog's state: [exportMethod] and [email]. *)
Record DialogState : Type := {
  exportMethod : ExportMethod;
  email : string
}.

Definition initial : DialogState :=
  {| exportMethod := Download; email := EmptyString |}.

(** Invocations of the dialog's props [onExport(sendEmail, email)] and
    [onOpenChange(open)]; an [undefined] address is [None]. *)
Inductive DialogCall : Type :=
| OnExport (sendEmail : bool) (address : option string)
| OnOpenChange (open : bool).

Definition isEmail (m : ExportMethod) : bool :=
  match m with Email => true | Download => false end.

(** [exportMethod === 'email' && !email]: also the [disabled] state of the
    Export button. *)
Definition blocked (s : DialogState) : bool :=
  isEmail (exportMethod s) && (email s =? EmptyString)%string.

Definition handleExport (s : DialogState) : DialogState * list DialogCall :=
  if blocked s then (s, [])
  else
    (initial,
     [ OnExport (isEmail (exportMethod s))
                (if isEmail (exportMethod s) then Some (email s) else None);
       OnOpenChange false ]).

Definition handleCancel (s : DialogState) : DialogState * list DialogCall :=
  (initial, [OnOpenChange false]).

Definition setExportMethod (m : ExportMethod) (s : DialogState) : DialogState :=
  {| exportMethod := m; email := email s |}.

Definition setEmail (e : string) (s : DialogState) : DialogState :=
  {| exportMethod := exportMethod s; email := e |}.

(** Invocations of the toolbar's props [onExportAll] and [onExportResults]. *)
Inductive ToolbarCall : Type :=
| ExportAll (sendEmail : bool) (address : option string)
| ExportResults (sendEmail : bool) (address : option string).

(** The [onExport] the toolbar passes to the dialog; [onExportAll] and
    [onExportResults] tell whether the parent supplied the callback. *)
Definition onExport (exportType : ExportType) (onExportAll onExportResults : bool)
    (sendEmail : bool) (address : option string) : list ToolbarCall :=
  match exportType with
  | All =>
      if onExportAll then [ExportAll sendEmail address] else []
  | Results =>
      if onExportResults then [ExportResults sendEmail address] else []
  | Selection => []
  end.

(** What reaches the parent when the dialog's Export button is pressed. *)
Definition submit (exportType : ExportType) (onExportAll onExportResults : bool)
    (s : DialogState) : list ToolbarCall :=
  List.flat_map (fun c => match c with
                          | OnExport sendEmail address =>
                              onExport exportType onExportAll onExportResults
                                       sendEmail address
                          | OnOpenChange _ => []
                          end) (snd (handleExport s)).

End ExportFlow.

(** ** FilterFieldRenderer: the value each control emits *)

Module FieldRenderer.

(** [Array.isArray(value) ? value : []] *)
Definition arrayOrEmpty (value : JsValue) : list JsValue :=
  match value with JsArray elems => elems | _ => [] end.

(** [v === s] for a string [s] *)
Definition isString (s : string) (v : JsValue) : bool :=
  match v with JsString s' => (s' =? s)%string | _ => false end.

(** [values.includes(s)] for a string [s] *)
Definition includesString (values : list JsValue) (s : string) : bool :=
  existsb (isString s) values.

(** [values.filter(v => v !== s)] *)
Definition withoutString (values : list JsValue) (s : string) : list JsValue :=
  List.filter (fun v => negb (isString s v)) values.

(** The value emitted by a click on the option of a select whose value is
    [optionValue]. *)
Definition selectClick (value : JsValue) (optionValue : string) : JsValue :=
  let selectValue := arrayOrEmpty value in
  let isSelected := includesString selectValue optionValue in
  JsArray (if isSelected then withoutString selectValue optionValue
           else selectValue ++ [JsString optionValue]).

(** The value emitted by a multiselect when [selected] is chosen. *)
Definition multiselectChange (value : JsValue) (selected : string) : JsValue :=
  if (selected =? EmptyString)%string then JsArray []
  else
    let currentValues := arrayOrEmpty value in
    if includesString currentValues selected
    then JsArray (withoutString currentValues selected)
    else JsArray (currentValues ++ [JsString selected]).

(** The value emitted by the true/false select of checkbox and boolean
    filters and of the [exists] operator: [val === 'true']. *)
Definition booleanChange (val : string) : JsValue :=
  JsBool (val =? "true")%string.

(** The own enumerable properties an object spread copies.  A string is
    taken as a sequence of one-unit characters. *)
Definition ownProps (v : JsValue) : list (string * JsValue) :=
  match v with
  | JsObject props => props
  | JsArray elems => imap (fun i e => (pretty i, e)) elems
  | JsString s =>
      imap (fun i c => (pretty i, JsString (String c EmptyString)))
           (list_ascii_of_string s)
  | _ => []
  end.

(** Writing a property: in place when present, at the end otherwise. *)
Fixpoint setProp (k : string) (x : JsValue) (props : list (string * JsValue))
  : list (string * JsValue) :=
  match props with
  | [] => [(k, x)]
  | (k', v) :: rest =>
      if (k =? k')%string then (k, x) :: rest else (k', v) :: setProp k x rest
  end.

(** [{ ...base, [k]: x }] *)
Definition spreadWith (base : JsValue) (k : string) (x : JsValue) : JsValue :=
  JsObject (setProp k x (ownProps base)).

(** [value || { min: '', max: '' }] and [value || { from: '', to: '' }] *)
Definition numberRangeValue (value : JsValue) : JsValue :=
  Js.or value (JsObject [("min", JsString EmptyString);
                         ("max", JsString EmptyString)]).


(** [e.target.value ? Number(e.target.value) : ''] for a number input, whose
    value is the empty string or a numeral; [None] is the empty input and
    [Some n] the numeral of the integer [n]. *)
Definition numberOrBlank (input : option Z) : JsValue :=
  match input with
  | Some n => JsNumber n
  | None => JsString EmptyString
  end.

(** The values emitted by the Min and the Max input of a numberrange. *)
Definition minChange (value : JsValue) (input : option Z) : JsValue :=
  spreadWith (numberRangeValue value) "min" (numberOrBlank input).

Definition maxChange (value : JsValue) (input : option Z) : JsValue :=
  spreadWith (numberRangeValue value) "max" (numberOrBlank input).




(** Which control the renderer shows. *)
Inductive Control : Type :=
| NoValueNeeded
| TrueFalseSelect
| TextInput
| NumberInput
| OptionList
| OptionSelect
| DatePickers (endDate : bool)
| RangeInputs.

Definition control (filter : AvailableFilter) (operator : option FilterOperator)
  : Control :=
  if isToday operator then NoValueNeeded
  else if sameOperator operator (Some OpExists) then TrueFalseSelect
  else
    match fd_type filter with
    | TText => TextInput
    | TNumber => NumberInput
    | TSelect => OptionList
    | TMultiselect => OptionSelect
    | TDate => DatePickers (sameOperator operator (Some OpBetween))
    | TNumberrange => RangeInputs
    | TCheckbox | TBoolean => TrueFalseSelect
    end.

(** The controls whose inputs carry [onKeyDown={handleKeyDown}], and so run
    [onEnterKey] on Enter. *)
Definition hasEnterKey (c : Control) : bool :=
  match c with
  | TextInput | NumberInput | RangeInputs => true
  | _ => false
  end.

(** A bound that is blank or zero. *)
Definition nonZero (input : option Z) : bool :=
  match input with
  | Some n => negb (n =? 0)%Z
  | None => false
  end.

End FieldRenderer.

(** ** The static helpers of useFilterController *)

Module ControllerHelpers.
Import Controller.

(** [controllers.forEach(c => c.representedFilters.forEach(rf =>
     ids.add(rf.filterId)))] *)
Definition getRepresentedFilterIds (controllers : list FilterControllerConfig)
  : gset string :=
  foldl (fun ids controller =>
           foldl (fun ids rf => ids ∪ {[ rf_filterId rf ]})
                 ids (representedFilters controller))
        ∅ controllers.

Definition getActiveControllerFilterIds
    (controllers : list FilterControllerConfig)
    (activeFilters : list ActiveFilter) : gset string :=
  foldl (fun ids controller =>
           foldl (fun ids rf =>
                    if existsb (matches rf) activeFilters
                    then ids ∪ {[ rf_filterId rf ]} else ids)
                 ids (representedFilters controller))
        ∅ controllers.

(** The represented entry a filter was built from. *)
Definition tripleOf (af : ActiveFilter)
  : string * option FilterOperator * JsValue :=
  (af_filterId af, af_operator af, af_value af).

End ControllerHelpers.

(** ** Further observations on the toolbar *)

Module MoreObservations.
Import Toolbar.

(** The props once the parent has taken over what the toolbar holds: the
    applied search text is the local one and the applied filters are the
    pending ones. *)
Definition adopted (p : Props) (s : State) : Props :=
  {| searchValue := localSearchValue s;
     onSearchChange := onSearchChange p;
     availableFilters := availableFilters p;
     activeFilters := pendingFilters s;
     onFiltersChange := onFiltersChange p |}.

(** A burst of keystrokes in the search box, all under the same props. *)
Definition typing (p : Props) (texts : list string) : list (Props * Event) :=
  List.map (fun v => (p, SearchInput v)) texts.

(** The value of the applied filter that [hasPendingTextFilters] compares a
    pending filter with. *)
Definition appliedValue (p : Props) (filterId : string) : JsValue :=
  match List.find (fun af => (af_filterId af =? filterId)%string)
                  (activeFilters p) with
  | Some af => af_value af
  | None => JsUndefined
  end.

(** The one timeout a burst of keystrokes leaves behind. *)
Definition lastTimer (p : Props) (id : nat) (text : string) : Timer :=
  {| tm_id := id; tm_delay := 800; tm_callback := debounced p text |}.

(** The filter [handleAddFilter] builds for the definition [filterDef]. *)
Definition addedFilter (now : Z) (filterDef : AvailableFilter) : ActiveFilter :=
  {| af_id := "filter-" +:+ numberToString now;
     af_filterId := fd_id filterDef;
     af_operator := defaultOperatorOf filterDef;
     af_value := JsString EmptyString |}.

End MoreObservations.

(** * Properties *)

(** ** Serialization *)

Lemma sameJSON_refl (a : option string) : sameJSON a a = true.
Proof. destruct a as [x|]; simpl; [apply String.eqb_refl | reflexivity]. Qed.

Example stringify_array :
  stringify (JsArray [JsNumber 1; JsUndefined; JsNull; JsBool true])
  = Some "[1,null,null,true]".
Proof. reflexivity. Qed.

Example stringify_object :
  stringify (JsObject [("a", JsUndefined); ("b", JsNumber (-2))])
  = Some ("{" +:+ dquote +:+ "b" +:+ dquote +:+ ":-2}").
Proof. reflexivity. Qed.

Example stringify_escapes :
  stringify (JsString (String "010"%char "q"))
  = Some (dquote +:+ backslash +:+ "nq" +:+ dquote).
Proof. reflexivity. Qed.

Example toString_array :
  toString (JsArray [JsNumber 1; JsNull; JsString "x";
                     JsArray [JsNumber 2; JsNumber 3]])
  = "1,,x,2,3".
Proof. reflexivity. Qed.

Module ToolbarFacts.
Import Toolbar Observations ToolbarSamples.

Ltac unfold_handlers :=
  unfold callsOf, stateAfter,
    handleFilterModeChange, handleSearchInputChange, handleSearchKeyDown,
    handleApplyFilters, unmount, handleAddFilter, handleRemoveFilter,
    handleFilterValueChange, handleOperatorChange, handleClearAllFilters,
    handleKeyDown, syncSearchValue, syncActiveFilters,
    callOnSearchChange, callOnFiltersChange, clearDebounce,
    render, readRef, writeRef, setFilterMode, setLocalSearchValue,
    setPendingFilters, clearTimeout, setTimeout, invoke, skip,
    mbind, M_bind, mret, M_ret.

Ltac split_cases :=
  repeat match goal with
         | |- context [if ?b then _ else _] => destruct b eqn:?; simpl
         | |- context [match ?x with Some _ => _ | None => _ end] =>
             destruct x eqn:?; simpl
         end.

(** ** What one handler does, for a parent that supplies the callbacks *)

Section Callbacks.

Variable p : Props.
Variable s : State.
Hypothesis search_supplied : onSearchChange p = true.
Hypothesis filters_supplied : onFiltersChange p = true.

Lemma value_change_filters_calls (filterId : string) (value : JsValue)
    (filterType : FilterFieldType) :
  filterType <> TText ->
  filtersCalls (callsOf (handleFilterValueChange p filterId value filterType) s)
  = [valueChanged filterId value (pendingFilters s)].
Proof using filters_supplied.
  clear search_supplied.
  intros Hty. unfold_handlers. unfold valueChanged. rewrite filters_supplied.
  rewrite bool_decide_eq_false_2 by exact Hty. simpl.
  destruct (hasUnappliedSearchChange p s); simpl; [|reflexivity].
  destruct (searchDebounceRef s); simpl;
    destruct (onSearchChange p); reflexivity.
Qed.

Lemma value_change_calls (filterId : string) (value : JsValue)
    (filterType : FilterFieldType) :
  filterType <> TText ->
  callsOf (handleFilterValueChange p filterId value filterType) s
  = FiltersChange (valueChanged filterId value (pendingFilters s))
    :: searchFlush p s.
Proof using search_supplied filters_supplied.
  intros Hty. unfold_handlers. unfold searchFlush, valueChanged.
  rewrite search_supplied, filters_supplied.
  rewrite bool_decide_eq_false_2 by exact Hty. simpl.
  destruct (hasUnappliedSearchChange p s); simpl.
  - destruct (searchDebounceRef s); reflexivity.
  - reflexivity.
Qed.

Lemma operator_change_calls (filterId : string) (operator : FilterOperator) :
  callsOf (handleOperatorChange p filterId operator) s
  = FiltersChange (operatorChanged filterId operator (pendingFilters s))
    :: searchFlush p s.
Proof using search_supplied filters_supplied.
  unfold_handlers. unfold searchFlush, operatorChanged.
  rewrite search_supplied, filters_supplied. simpl.
  destruct (hasUnappliedSearchChange p s); simpl.
  - destruct (searchDebounceRef s); reflexivity.
  - reflexivity.
Qed.

Lemma apply_calls :
  callsOf (handleApplyFilters p) s
  = searchFlush p s
    ++ (if hasUnappliedFilterChanges p s
        then [FiltersChange (pendingFilters s)] else []).
Proof using search_supplied filters_supplied.
  unfold_handlers. unfold searchFlush.
  rewrite search_supplied, filters_supplied.
  destruct (hasUnappliedSearchChange p s); simpl.
  - destruct (searchDebounceRef s); simpl;
      destruct (hasUnappliedFilterChanges p s); reflexivity.
  - destruct (hasUnappliedFilterChanges p s); reflexivity.
Qed.

Lemma value_change_state (filterId : string) (value : JsValue)
    (filterType : FilterFieldType) :
  let s' := stateAfter (handleFilterValueChange p filterId value filterType) s in
  pendingFilters s' = valueChanged filterId value (pendingFilters s)
  /\ localSearchValue s' = localSearchValue s
  /\ nextTimeout s' = nextTimeout s.
Proof using Type.
  clear search_supplied filters_supplied.
  unfold_handlers. unfold valueChanged.
  destruct (negb (bool_decide (filterType = TText))); simpl; auto.
  destruct (onFiltersChange p); simpl;
    destruct (hasUnappliedSearchChange p s); simpl; auto;
    destruct (searchDebounceRef s); simpl;
    destruct (onSearchChange p); simpl; auto.
Qed.

Lemma operator_change_state (filterId : string) (operator : FilterOperator) :
  let s' := stateAfter (handleOperatorChange p filterId operator) s in
  pendingFilters s' = operatorChanged filterId operator (pendingFilters s)
  /\ localSearchValue s' = localSearchValue s
  /\ nextTimeout s' = nextTimeout s.
Proof using Type.
  clear search_supplied filters_supplied.
  unfold_handlers. unfold operatorChanged.
  destruct (onFiltersChange p); simpl;
    destruct (hasUnappliedSearchChange p s); simpl; auto;
    destruct (searchDebounceRef s); simpl;
    destruct (onSearchChange p); simpl; auto.
Qed.

Lemma findDef_first (filterId : string) (filterDef : AvailableFilter) :
  firstDefinition p filterId filterDef -> findDef p filterId = Some filterDef.
Proof using Type.
  clear search_supplied filters_supplied.
  intros (before & after & Hl & Hid & Hbefore). unfold findDef. rewrite Hl.
  clear Hl. induction before as [|d before IH]; simpl.
  - rewrite Hid, String.eqb_refl. reflexivity.
  - apply Forall_cons in Hbefore as [Hd Hbefore].
    apply String.eqb_neq in Hd. rewrite Hd. apply IH. exact Hbefore.
Qed.

Lemma findDef_none (filterId : string) :
  Forall (fun d => fd_id d <> filterId) (availableFilters p) ->
  findDef p filterId = None.
Proof using Type.
  clear search_supplied filters_supplied.
  unfold findDef. induction (availableFilters p) as [|d l IH]; simpl; intros H.
  - reflexivity.
  - apply Forall_cons in H as [Hd H].
    apply String.eqb_neq in Hd. rewrite Hd. apply IH. exact H.
Qed.

Lemma resetOperator_spec (f : ActiveFilter) :
  operatorReset p f (resetOperator p f).
Proof using Type.
  clear search_supplied filters_supplied.
  unfold operatorReset.
  assert (Hkeep : af_id (resetOperator p f) = af_id f
                  /\ af_filterId (resetOperator p f) = af_filterId f
                  /\ af_value (resetOperator p f) = af_value f).
  { unfold resetOperator. destruct (findDef p (af_filterId f)); auto. }
  destruct Hkeep as (H1 & H2 & H3).
  split; [exact H1|]. split; [exact H2|]. split; [exact H3|]. split.
  - intros Hnone. unfold resetOperator.
    rewrite (findDef_none (af_filterId f) Hnone). reflexivity.
  - intros filterDef Hfirst. unfold resetOperator.
    rewrite (findDef_first (af_filterId f) filterDef Hfirst).
    cbn [af_operator withOperator]. unfold defaultOperatorOf, operatorsOf.
    destruct (fd_defaultOperator filterDef) as [o|]; [reflexivity|].
    destruct (fd_operators filterDef) as [[|first rest]|]; try reflexivity.
    destruct (DEFAULT_OPERATORS (fd_type filterDef)); reflexivity.
Qed.

Lemma valueChanged_edits (filterId : string) (value : JsValue)
    (l : list ActiveFilter) :
  Forall2 (valueEdit filterId value) l (valueChanged filterId value l).
Proof using Type.
  clear. induction l as [|f l IH]; simpl; constructor; [|exact IH].
  unfold valueEdit. destruct (af_id f =? filterId)%string eqn:E.
  - apply String.eqb_eq in E. cbn [af_id af_filterId af_operator af_value withValue].
    repeat split; try reflexivity. intros Hne. contradiction.
  - apply String.eqb_neq in E. repeat split; try reflexivity.
    intros Heq. contradiction.
Qed.

Lemma operatorChanged_edits (filterId : string) (operator : FilterOperator)
    (l : list ActiveFilter) :
  Forall2 (operatorEdit filterId operator) l (operatorChanged filterId operator l).
Proof using Type.
  clear. induction l as [|f l IH]; simpl; constructor; [|exact IH].
  unfold operatorEdit. destruct (af_id f =? filterId)%string eqn:E.
  - apply String.eqb_eq in E.
    cbn [af_id af_filterId af_operator af_value withOperator].
    repeat split; try reflexivity. intros Hne. contradiction.
  - apply String.eqb_neq in E. repeat split; try reflexivity.
    intros Heq. contradiction.
Qed.

(** [C1], amended.  A value change on a filter of type text invokes no
    callback and schedules nothing: it only rewrites the pending list.  A
    value change on a filter of any other type, number and numberrange
    included, invokes [onFiltersChange] once with the updated list.  Apply
    Filters, which is also what Enter in a value field runs, invokes
    [onFiltersChange] exactly once, with the whole pending list, when the
    pending list differs from the applied list, and not at all otherwise. *)
Theorem text_edit_deferred :
  (forall filterId value,
      let h := handleFilterValueChange p filterId value TText in
      callsOf h s = []
      /\ pendingFilters (stateAfter h s)
         = valueChanged filterId value (pendingFilters s)
      /\ timeouts (stateAfter h s) = timeouts s)
  /\ (forall filterId value filterType,
        filterType <> TText ->
        filtersCalls
          (callsOf (handleFilterValueChange p filterId value filterType) s)
        = [valueChanged filterId value (pendingFilters s)])
  /\ filtersCalls (callsOf (handleApplyFilters p) s)
     = (if hasUnappliedFilterChanges p s then [pendingFilters s] else [])
  /\ handleKeyDown (Some (handleApplyFilters p)) "Enter" = handleApplyFilters p.
Proof using filters_supplied.
  clear search_supplied.
  split; [|split; [|split]].
  - intros filterId value h. subst h. unfold_handlers. simpl. auto.
  - intros filterId value filterType Hty.
    apply value_change_filters_calls; assumption.
  - unfold_handlers. rewrite filters_supplied.
    destruct (hasUnappliedSearchChange p s); simpl.
    + destruct (searchDebounceRef s); simpl;
        destruct (onSearchChange p); simpl;
        destruct (hasUnappliedFilterChanges p s); reflexivity.
    + destruct (hasUnappliedFilterChanges p s); reflexivity.
  - reflexivity.
Qed.

(** [C2] A value change on a filter of type select, multiselect, date,
    checkbox or boolean, and an operator change on any filter, invoke
    [onFiltersChange] exactly once within the handler itself (no timeout is
    scheduled), with the updated list: the pending list in which the filter
    aimed at carries the new value (the new operator) and everything else
    is as before; that list is also the new pending list.  When the local
    search text differs from the applied one, [onSearchChange] is invoked
    with the local search text in the same step, and not otherwise. *)
Theorem auto_commit_same_step (filterId : string) :
  (forall value filterType,
      In filterType [TSelect; TMultiselect; TDate; TCheckbox; TBoolean] ->
      let h := handleFilterValueChange p filterId value filterType in
      exists updated,
        filtersCalls (callsOf h s) = [updated]
        /\ Forall2 (valueEdit filterId value) (pendingFilters s) updated
        /\ searchCalls (callsOf h s)
           = (if hasUnappliedSearchChange p s then [localSearchValue s] else [])
        /\ pendingFilters (stateAfter h s) = updated
        /\ nextTimeout (stateAfter h s) = nextTimeout s)
  /\ (forall operator,
      let h := handleOperatorChange p filterId operator in
      exists updated,
        filtersCalls (callsOf h s) = [updated]
        /\ Forall2 (operatorEdit filterId operator) (pendingFilters s) updated
        /\ searchCalls (callsOf h s)
           = (if hasUnappliedSearchChange p s then [localSearchValue s] else [])
        /\ pendingFilters (stateAfter h s) = updated
        /\ nextTimeout (stateAfter h s) = nextTimeout s).
Proof using search_supplied filters_supplied.
  split.
  - intros value filterType Hin h.
    assert (Hty : filterType <> TText).
    { intros ->. simpl in Hin. intuition discriminate. }
    subst h. exists (valueChanged filterId value (pendingFilters s)).
    rewrite (value_change_calls filterId value filterType Hty).
    pose proof (value_change_state filterId value filterType) as (H1 & _ & H3).
    split; [|split; [apply valueChanged_edits|]];
      unfold searchFlush;
      destruct (hasUnappliedSearchChange p s); simpl; auto.
  - intros operator h. subst h.
    exists (operatorChanged filterId operator (pendingFilters s)).
    rewrite (operator_change_calls filterId operator).
    pose proof (operator_change_state filterId operator) as (H1 & _ & H3).
    split; [|split; [apply operatorChanged_edits|]];
      unfold searchFlush;
      destruct (hasUnappliedSearchChange p s); simpl; auto.
Qed.

(** [C3], amended.  When the local search text differs from the applied
    one: an explicit Apply with a changed pending list invokes
    [onSearchChange] and then [onFiltersChange]; an auto-committing value
    change and an operator change invoke [onFiltersChange] and then
    [onSearchChange].  Both invocations belong to the handler's own step. *)
Theorem commit_order :
  hasUnappliedSearchChange p s = true ->
  (hasUnappliedFilterChanges p s = true ->
   callsOf (handleApplyFilters p) s
   = [SearchChange (localSearchValue s); FiltersChange (pendingFilters s)])
  /\ (forall filterId value filterType,
        filterType <> TText ->
        callsOf (handleFilterValueChange p filterId value filterType) s
        = [FiltersChange (valueChanged filterId value (pendingFilters s));
           SearchChange (localSearchValue s)])
  /\ (forall filterId operator,
        callsOf (handleOperatorChange p filterId operator) s
        = [FiltersChange (operatorChanged filterId operator (pendingFilters s));
           SearchChange (localSearchValue s)]).
Proof using search_supplied filters_supplied.
  intros Hsearch. split; [|split].
  - intros Hfilters. rewrite apply_calls.
    unfold searchFlush. rewrite Hsearch, Hfilters. reflexivity.
  - intros filterId value filterType Hty.
    rewrite value_change_calls by assumption.
    unfold searchFlush. rewrite Hsearch. reflexivity.
  - intros filterId operator.
    rewrite operator_change_calls.
    unfold searchFlush. rewrite Hsearch. reflexivity.
Qed.

(** [C5] Clear-all, from any pending search text and any pending filter
    list, invokes exactly two callbacks: [onSearchChange] with the empty
    string and [onFiltersChange] with the empty list; the pending state is
    emptied. *)
Theorem clear_all_two_calls :
  callsOf (handleClearAllFilters p) s
  = [SearchChange EmptyString; FiltersChange []]
  /\ pendingFilters (stateAfter (handleClearAllFilters p) s) = []
  /\ localSearchValue (stateAfter (handleClearAllFilters p) s) = EmptyString.
Proof using search_supplied filters_supplied.
  unfold_handlers. rewrite search_supplied, filters_supplied. simpl. auto.
Qed.

(** [C6] Switching the filter mode to basic invokes [onFiltersChange]
    exactly once (and no other callback), with the pending list in which
    every filter keeps its identity, its definition and its value, and
    every filter whose definition exists carries that definition's default
    operator: the definition's [defaultOperator] when it names one, else
    the first of the definition's own operators, else the first operator of
    its type in [DEFAULT_OPERATORS]; a filter without definition keeps its
    operator.  That list is also the new pending list. *)
Theorem basic_mode_resets_operators :
  exists updated,
    callsOf (handleFilterModeChange p Basic) s = [FiltersChange updated]
    /\ pendingFilters (stateAfter (handleFilterModeChange p Basic) s) = updated
    /\ filterMode (stateAfter (handleFilterModeChange p Basic) s) = Basic
    /\ Forall2 (operatorReset p) (pendingFilters s) updated.
Proof using filters_supplied.
  exists (List.map (resetOperator p) (pendingFilters s)).
  unfold_handlers. rewrite filters_supplied. simpl.
  split; [reflexivity|]. split; [reflexivity|]. split; [reflexivity|].
  induction (pendingFilters s) as [|f l IH]; simpl; constructor.
  - apply resetOperator_spec.
  - exact IH.
Qed.

End Callbacks.

(** ** Worked scenarios on the sample toolbar *)

(** [C1], as stated, fails: an edit of a number filter (and likewise of a
    numberrange filter) is passed to [onFiltersChange] by the value-change
    handler itself. *)
Lemma number_edit_commits_at_once :
  callsOf (dispatch sampleProps (FieldChange ageFilter (JsNumber 31)))
          (mount sampleProps)
  = [ FiltersChange [nameFilter; statusFilter;
                     withValue ageFilter (JsNumber 31); createdFilter] ]
  /\ ~ (forall p s filterId value filterType,
          In filterType [TText; TNumber; TNumberrange] ->
          filtersCalls
            (callsOf (handleFilterValueChange p filterId value filterType) s)
          = []).
Proof.
  split; [vm_compute; reflexivity|].
  intros H.
  specialize (H sampleProps (mount sampleProps) "filter-3" (JsNumber 31) TNumber).
  simpl in H. discriminate H. auto.
Qed.

(** Two text edits stay buffered; Apply then passes both in one call. *)
Lemma text_edit_deferred_witness :
  let edit1 := handleFilterValueChange sampleProps "filter-1" (JsString "b") TText in
  let edit2 := handleFilterValueChange sampleProps "filter-1" (JsString "bo") TText in
  let s1 := stateAfter edit1 (mount sampleProps) in
  let s2 := stateAfter edit2 s1 in
  callsOf edit1 (mount sampleProps) = []
  /\ callsOf edit2 s1 = []
  /\ filtersCalls (callsOf (handleApplyFilters sampleProps) s2)
     = [[withValue nameFilter (JsString "bo"); statusFilter; ageFilter;
         createdFilter]]
  /\ filtersCalls
       (callsOf (handleFilterValueChange sampleProps "filter-3" (JsNumber 31)
                   TNumber) s2)
     = [[withValue nameFilter (JsString "bo"); statusFilter;
         withValue ageFilter (JsNumber 31); createdFilter]].
Proof.
  intros edit1 edit2 s1 s2.
  split; [|split; [|split]].
  - apply (text_edit_deferred sampleProps (mount sampleProps) eq_refl).
  - apply (text_edit_deferred sampleProps s1 eq_refl).
  - pose proof (text_edit_deferred sampleProps s2 eq_refl) as (_ & _ & H & _).
    exact H.
  - pose proof (text_edit_deferred sampleProps s2 eq_refl) as (_ & H & _).
    apply (H "filter-3" (JsNumber 31) TNumber). discriminate.
Defined.

(** Adding "closed" to the status selection while [abc] is typed in the
    search box: the committed list holds the status filter with the new
    selection, and the search text is committed with it. *)
Lemma auto_commit_same_step_witness :
  let selection := JsArray [JsString "open"; JsString "closed"] in
  let h := handleFilterValueChange sampleProps "filter-2" selection TSelect in
  filtersCalls (callsOf h typedState)
  = [[ nameFilter;
       {| af_id := "filter-2"; af_filterId := "status";
          af_operator := Some OpEq;
          af_value := JsArray [JsString "open"; JsString "closed"] |};
       ageFilter; createdFilter ]]
  /\ searchCalls (callsOf h typedState) = ["abc"]
  /\ filtersCalls (callsOf (handleOperatorChange sampleProps "filter-3" OpLt)
                           typedState)
     = [[ nameFilter; statusFilter;
          {| af_id := "filter-3"; af_filterId := "age";
             af_operator := Some OpLt; af_value := JsNumber 30 |};
          createdFilter ]].
Proof.
  intros selection h.
  pose proof (auto_commit_same_step sampleProps typedState eq_refl eq_refl
                "filter-2") as [Hvalue _].
  pose proof (auto_commit_same_step sampleProps typedState eq_refl eq_refl
                "filter-3") as [_ Hop].
  destruct (Hvalue selection TSelect) as (updated & Hcalls & _ & Hsearch & _);
    [simpl; auto|].
  destruct (Hop OpLt) as (updated' & Hcalls' & _).
  split; [|split].
  - fold h in Hcalls. rewrite Hcalls. vm_compute in Hcalls.
    injection Hcalls as <-. reflexivity.
  - exact Hsearch.
  - rewrite Hcalls'. vm_compute in Hcalls'. injection Hcalls' as <-. reflexivity.
Defined.

(** [C3], as stated, fails: an operator change made while a search edit is
    pending flushes both, and [onFiltersChange] is invoked first. *)
Lemma operator_change_filters_first :
  callsOf (handleOperatorChange sampleProps "filter-3" OpLt) typedState
  = [ FiltersChange [nameFilter; statusFilter;
                     withOperator ageFilter (Some OpLt); createdFilter];
      SearchChange "abc" ]
  /\ searchFirst
       (callsOf (handleOperatorChange sampleProps "filter-3" OpLt) typedState)
     = false.
Proof. split; vm_compute; reflexivity. Qed.

Lemma commit_order_witness :
  callsOf (handleApplyFilters sampleProps)
          (stateAfter (handleFilterValueChange sampleProps "filter-1"
                         (JsString "bob") TText) typedState)
  = [ SearchChange "abc";
      FiltersChange [withValue nameFilter (JsString "bob"); statusFilter;
                     ageFilter; createdFilter] ].
Proof.
  apply (commit_order sampleProps
           (stateAfter (handleFilterValueChange sampleProps "filter-1"
                          (JsString "bob") TText) typedState));
    vm_compute; reflexivity.
Defined.

Lemma clear_all_two_calls_witness :
  callsOf (handleClearAllFilters sampleProps) typedState
  = [SearchChange EmptyString; FiltersChange []].
Proof. apply (clear_all_two_calls sampleProps typedState); reflexivity. Defined.

(** Back to basic mode on a toolbar whose filters use other operators: the
    priority filter takes the first of its definition's own operators, the
    age filter the first operator of the number entry of the catalogue, the
    date filter its definition's default, and the filter without definition
    keeps its operator. *)
Lemma basic_mode_resets_operators_witness :
  filterMode customAdvanced = Advanced
  /\ callsOf (handleFilterModeChange customProps Basic) customAdvanced
     = [FiltersChange
          [ {| af_id := "filter-8"; af_filterId := "priority";
               af_operator := Some OpIn;
               af_value := JsArray [JsString "high"] |};
            {| af_id := "filter-3"; af_filterId := "age";
               af_operator := Some OpEq; af_value := JsNumber 30 |};
            {| af_id := "filter-4"; af_filterId := "created";
               af_operator := Some OpOn;
               af_value := JsObject [("from", JsString "2024-01-01T00:00:00.000Z");
                                     ("to", JsString EmptyString)] |};
            {| af_id := "filter-9"; af_filterId := "gone";
               af_operator := Some OpNin; af_value := JsString "x" |} ]].
Proof.
  split; [reflexivity|].
  destruct (basic_mode_resets_operators customProps customAdvanced eq_refl)
    as (updated & Hcalls & _).
  rewrite Hcalls. vm_compute in Hcalls. injection Hcalls as <-.
  reflexivity.
Defined.

(** ** The badge *)

Lemma or_truthy (a b : JsValue) : truthy (or a b) = truthy a || truthy b.
Proof. unfold or. destruct (truthy a) eqn:Ha; simpl; [exact Ha | reflexivity]. Qed.

Lemma truthy_not_blank (v : JsValue) : truthy v = true -> blank v = false.
Proof. destruct v as [| |b|n|str|elems|props]; simpl; try discriminate; auto.
  destruct str; [discriminate | reflexivity]. Qed.

(** The badge never counts a filter that is not meaningful. *)
Lemma counted_is_meaningful (f : ActiveFilter) :
  countsAsActive f = true -> meaningful f = true.
Proof.
  unfold countsAsActive, meaningful, isToday.
  destruct (af_operator f) as [o|]; [destruct o|]; simpl; try reflexivity;
    (destruct (af_value f) as [| |b|n|str|elems|props]; simpl;
     try discriminate; try reflexivity;
     [ destruct str; [discriminate | reflexivity]
     | destruct elems; [discriminate | reflexivity]
     | rewrite !or_truthy; unfold fieldSet; simpl;
       intros H; rewrite orb_false_r;
       repeat (apply orb_true_iff in H as [H | H]);
       apply truthy_not_blank in H; rewrite H; simpl;
       rewrite ?orb_true_r; reflexivity ]).
Qed.

(** The two agree on every filter whose range fields, when set, are truthy
    (no bound 0 and no [false]). *)
Lemma counted_iff_meaningful (f : ActiveFilter) :
  (forall k, In k ["from"; "to"; "min"; "max"] ->
             truthy (getProp (af_value f) k) = negb (blank (getProp (af_value f) k))) ->
  countsAsActive f = meaningful f.
Proof.
  intros Hfields. unfold countsAsActive, meaningful, isToday.
  destruct (af_operator f) as [o|]; [destruct o|]; simpl; try reflexivity;
    (destruct (af_value f) as [| |b|n|str|elems|props] eqn:Hv; simpl;
     try reflexivity;
     [ destruct str; reflexivity
     | destruct elems; reflexivity
     | rewrite !or_truthy; unfold fieldSet; simpl; simpl in Hfields;
       rewrite (Hfields "from"), (Hfields "to"), (Hfields "min"),
         (Hfields "max") by auto;
       rewrite orb_false_r, !orb_assoc; reflexivity ]).
Qed.

(** The scenario of the specification: a [today] filter, a filter with the
    empty string and a filter with a non-empty array count 2, which is also
    the number of meaningful filters among them. *)
Lemma active_count_scenario (p : Props) (f1 f2 f3 : ActiveFilter) :
  activeFilters p = [f1; f2; f3] ->
  af_operator f1 = Some OpToday ->
  af_operator f2 <> Some OpToday ->
  af_value f2 = JsString EmptyString ->
  af_value f3 = JsArray [JsString "a"] ->
  activeFilterCount p = 2
  /\ length (List.filter meaningful (activeFilters p)) = 2.
Proof.
  intros Hl H1 H2 Hv2 Hv3. unfold activeFilterCount. rewrite Hl. simpl.
  assert (C1 : countsAsActive f1 = true).
  { unfold countsAsActive, isToday. rewrite H1. reflexivity. }
  assert (C2 : countsAsActive f2 = false).
  { unfold countsAsActive, isToday.
    rewrite bool_decide_eq_false_2 by exact H2. rewrite Hv2. reflexivity. }
  assert (C3 : countsAsActive f3 = true).
  { unfold countsAsActive. rewrite Hv3.
    destruct (isToday (af_operator f3)); reflexivity. }
  assert (M1 : meaningful f1 = true) by (unfold meaningful; rewrite H1; reflexivity).
  assert (M2 : meaningful f2 = false).
  { unfold meaningful. rewrite Hv2.
    destruct (af_operator f2) as [o|]; [destruct o|]; try reflexivity.
    contradiction. }
  assert (M3 : meaningful f3 = true) by (apply counted_is_meaningful, C3).
  rewrite C1, C2, C3, M1, M2, M3. split; reflexivity.
Qed.

(** [C7] fails on a range with a zero bound.  Adding a salary range filter
    and typing [0] into its Min input commits the value [{min: 0, max: ''}];
    with that filter applied the badge counts 0, although the range is not
    all-empty and one filter is meaningful.  The same handler counts a
    number filter with value 0 and a range with minimum 5; on the scenario
    of a [today] filter, an empty string and the array ['a'] the count is
    2. *)
Theorem zero_bound_not_counted :
  callsOf (run [ (emptyRangeProps, AddSelect 1700000000000 "salary");
                 (emptyRangeProps,
                  FieldChange addedRangeRow
                    (FieldRenderer.minChange (af_value addedRangeRow)
                                             (Some 0%Z))) ])
          (mount emptyRangeProps)
  = [FiltersChange [zeroRangeFilter]]
  /\ meaningful zeroRangeFilter = true
  /\ countsAsActive zeroRangeFilter = false
  /\ activeFilterCount zeroRangeProps = 0
  /\ length (List.filter meaningful (activeFilters zeroRangeProps)) = 1
  /\ countsAsActive zeroNumberFilter = true
  /\ countsAsActive fiveRangeFilter = true
  /\ activeFilterCount badgeProps = 2.
Proof. repeat split; vm_compute; reflexivity. Qed.

(** ** The debounce timeout

    An invariant of every reachable state, proved handler by handler and
    then along a run. *)

Lemma stateAfter_bind {A B} (m : M A) (f : A -> M B) (s : State) :
  stateAfter (m ≫= f) s = stateAfter (f (fst (fst (m s)))) (stateAfter m s).
Proof.
  unfold stateAfter, mbind, M_bind.
  destruct (m s) as [[x s1] t1]. simpl.
  destruct (f x s1) as [[y s2] t2]. reflexivity.
Qed.

Lemma preserves_bind {A B} (m : M A) (f : A -> M B) :
  preserves m -> (forall x, preserves (f x)) -> preserves (m ≫= f).
Proof.
  intros Hm Hf s Hs. rewrite stateAfter_bind. apply Hf, Hm, Hs.
Qed.

Lemma preserves_skip : preserves skip.
Proof. intros s Hs. exact Hs. Qed.

Lemma preserves_render : preserves render.
Proof. intros s Hs. exact Hs. Qed.

Lemma preserves_setFilterMode m : preserves (setFilterMode m).
Proof. intros s Hs. exact Hs. Qed.

Lemma preserves_setLocalSearchValue v : preserves (setLocalSearchValue v).
Proof. intros s Hs. exact Hs. Qed.

Lemma preserves_setPendingFilters l : preserves (setPendingFilters l).
Proof. intros s Hs. exact Hs. Qed.

Lemma preserves_callOnSearchChange p v : preserves (callOnSearchChange p v).
Proof.
  intros s Hs. unfold callOnSearchChange. destruct (onSearchChange p); exact Hs.
Qed.

Lemma preserves_callOnFiltersChange p l : preserves (callOnFiltersChange p l).
Proof.
  intros s Hs. unfold callOnFiltersChange. destruct (onFiltersChange p); exact Hs.
Qed.

(** Under the invariant, clearing the debounce leaves no live timeout. *)
Lemma clearDebounce_clears (s : State) :
  singleTimer s -> timeouts (stateAfter clearDebounce s) = [].
Proof.
  unfold singleTimer. unfold_handlers.
  destruct (timeouts s) as [|t [|t' l]] eqn:Ht; simpl.
  - intros _. destruct (searchDebounceRef s); simpl; [rewrite Ht|]; auto.
  - intros [Href _]. rewrite Href. simpl. rewrite Ht. simpl.
    rewrite Nat.eqb_refl. reflexivity.
  - intros [].
Qed.

Lemma preserves_clearDebounce : preserves clearDebounce.
Proof.
  intros s Hs. pose proof (clearDebounce_clears s Hs) as H.
  unfold singleTimer. rewrite H. exact I.
Qed.

Lemma preserves_runTimeout id : preserves (runTimeout id).
Proof.
  intros s. unfold singleTimer, stateAfter, runTimeout.
  destruct (timeouts s) as [|t [|t' l]] eqn:Ht; simpl.
  - rewrite Ht. auto.
  - destruct (Nat.eqb (tm_id t) id) eqn:E; simpl; [auto|].
    rewrite Ht. auto.
  - intros [].
Qed.

(** A keystroke replaces the live timeout, if any, by a fresh one. *)
Lemma search_input_reschedules (p : Props) (v : string) (s : State) :
  singleTimer s ->
  let s' := stateAfter (handleSearchInputChange p v) s in
  timeouts s' = [{| tm_id := nextTimeout s; tm_delay := 800;
                    tm_callback := debounced p v |}]
  /\ searchDebounceRef s' = Some (nextTimeout s)
  /\ localSearchValue s' = v.
Proof.
  intros Hs. pose proof (clearDebounce_clears s Hs) as H.
  revert H. unfold_handlers. simpl.
  destruct (searchDebounceRef s); simpl; intros ->; auto.
Qed.

Lemma preserves_handleSearchInputChange p v :
  preserves (handleSearchInputChange p v).
Proof.
  intros s Hs. destruct (search_input_reschedules p v s Hs) as (Ht & Href & _).
  unfold singleTimer. rewrite Ht, Href. simpl. split; [reflexivity|].
  unfold debounced. destruct (onSearchChange p); reflexivity.
Qed.

Create HintDb timer.

#[local] Hint Resolve preserves_skip preserves_render preserves_setFilterMode
  preserves_setLocalSearchValue preserves_setPendingFilters
  preserves_callOnSearchChange preserves_callOnFiltersChange
  preserves_clearDebounce preserves_runTimeout
  preserves_handleSearchInputChange : timer.

Ltac preserve :=
  repeat first
    [ progress auto with timer
    | apply preserves_bind
    | match goal with
      | |- forall _, preserves _ => intro
      | |- preserves (if ?b then _ else _) => destruct b
      | |- preserves (match ?x with _ => _ end) => destruct x
      end ].

Lemma preserves_dispatch (p : Props) (e : Event) : preserves (dispatch p e).
Proof.
  destruct e; unfold dispatch, handleSearchKeyDown, handleApplyFilters,
    handleKeyDown, handleFilterValueChange, handleOperatorChange,
    handleRemoveFilter, handleAddFilter, handleClearAllFilters,
    handleFilterModeChange, syncSearchValue, syncActiveFilters, unmount;
    preserve.
Qed.

Lemma mount_singleTimer (p : Props) : singleTimer (mount p).
Proof. exact I. Qed.

Lemma preserves_run (evs : list (Props * Event)) : preserves (run evs).
Proof.
  induction evs as [|[p e] rest IH]; simpl.
  - apply preserves_skip.
  - apply preserves_bind; [apply preserves_dispatch | intros _; exact IH].
Qed.

(** In every state a toolbar can reach there is at most one live timeout,
    the one held by the ref. *)
Lemma reachable_singleTimer (p0 : Props) (evs : list (Props * Event)) :
  singleTimer (stateAfter (run evs) (mount p0)).
Proof. apply preserves_run, mount_singleTimer. Qed.


Lemma apply_cancels (p : Props) (s : State) :
  singleTimer s ->
  hasUnappliedSearchChange p s = true ->
  timeouts (stateAfter (handleApplyFilters p) s) = [].
Proof.
  intros Hs Hc. pose proof (clearDebounce_clears s Hs) as H. revert H.
  unfold_handlers. rewrite Hc. simpl.
  destruct (searchDebounceRef s); simpl; destruct (onSearchChange p); simpl;
    destruct (hasUnappliedFilterChanges p s); simpl;
    destruct (onFiltersChange p); auto.
Qed.

Lemma unmount_cancels (s : State) :
  singleTimer s -> timeouts (stateAfter unmount s) = [].
Proof. apply clearDebounce_clears. Qed.

(** After unmount no timeout of the toolbar invokes a callback. *)
Lemma unmount_silences (s : State) (id : nat) :
  singleTimer s -> callsOf (runTimeout id) (stateAfter unmount s) = [].
Proof.
  intros Hs. unfold callsOf at 1. unfold runTimeout.
  rewrite (unmount_cancels s Hs). reflexivity.
Qed.

(** Clear-all never touches the timeouts ... *)
Lemma clear_all_keeps_timeouts (p : Props) (s : State) :
  timeouts (stateAfter (handleClearAllFilters p) s) = timeouts s.
Proof.
  unfold_handlers. destruct (onSearchChange p), (onFiltersChange p); reflexivity.
Qed.

(** ... so the timeout of a keystroke that precedes it still runs, and
    invokes [onSearchChange] with the text that was cleared. *)
Lemma clear_all_then_stale_search (p p' : Props) (v : string) (s : State) :
  singleTimer s ->
  onSearchChange p = true ->
  let typed := stateAfter (handleSearchInputChange p v) s in
  let cleared := stateAfter (handleClearAllFilters p') typed in
  callsOf (runTimeout (nextTimeout s)) cleared = [SearchChange v].
Proof.
  intros Hs Hcb typed cleared.
  destruct (search_input_reschedules p v s Hs) as (Ht & _).
  unfold callsOf, runTimeout. subst cleared.
  rewrite clear_all_keeps_timeouts. fold typed in Ht. rewrite Ht. simpl.
  rewrite Nat.eqb_refl. simpl. unfold debounced. rewrite Hcb. reflexivity.
Qed.

(** [C4] fails for Clear-all: after typing [abc] and clearing at once, the
    debounce timeout is still live, and when it elapses [onSearchChange] is
    invoked with the stale text [abc], after the invocation with the empty
    string. *)
Theorem clear_all_leaves_debounce :
  callsOf (run [ (sampleProps, SearchInput "abc");
                 (sampleProps, ClearAllClick);
                 (clearedProps, SearchValueChanged);
                 (clearedProps, ActiveFiltersChanged);
                 (clearedProps, TimeoutElapsed 1) ])
          (mount sampleProps)
  = [SearchChange EmptyString; FiltersChange []; SearchChange "abc"]
  /\ timeouts (stateAfter (handleClearAllFilters sampleProps) typedState)
     = [{| tm_id := 1; tm_delay := 800; tm_callback := [SearchChange "abc"] |}].
Proof. split; vm_compute; reflexivity. Qed.

(** ** What an [onFiltersChange] invocation carries *)

Lemma runTimeout_no_filters_call (s : State) (id : nat) :
  singleTimer s -> filtersCalls (callsOf (runTimeout id) s) = [].
Proof.
  unfold singleTimer, callsOf, runTimeout.
  destruct (timeouts s) as [|t [|t' l]]; simpl.
  - reflexivity.
  - intros [_ H]. destruct (Nat.eqb (tm_id t) id); simpl; [exact H | reflexivity].
  - intros [].
Qed.

Lemma dispatch_passes_pending (p : Props) (e : Event) (s : State) :
  singleTimer s ->
  forall l,
    In l (filtersCalls (callsOf (dispatch p e) s)) ->
    l = pendingFilters (stateAfter (dispatch p e) s).
Proof.
  intros Hs l. destruct e; simpl;
    try (unfold_handlers; simpl; split_cases; simpl; intuition congruence).
  rewrite runTimeout_no_filters_call by exact Hs. intros [].
Qed.

Lemma valueChanged_others filterId value l :
  othersKept filterId l (valueChanged filterId value l).
Proof.
  intros f Hin Hne. unfold valueChanged. apply in_map_iff. exists f.
  split; [|exact Hin].
  destruct (af_id f =? filterId)%string eqn:E; [|reflexivity].
  apply String.eqb_eq in E. contradiction.
Qed.

Lemma operatorChanged_others filterId operator l :
  othersKept filterId l (operatorChanged filterId operator l).
Proof.
  intros f Hin Hne. unfold operatorChanged. apply in_map_iff. exists f.
  split; [|exact Hin].
  destruct (af_id f =? filterId)%string eqn:E; [|reflexivity].
  apply String.eqb_eq in E. contradiction.
Qed.

(** [C10] In every state a toolbar can reach, whatever the event, an
    [onFiltersChange] invocation passes the whole pending list as it stands
    after the event.  Hence a value change on a filter of a type other than
    text, an operator change and the removal of a filter each invoke
    [onFiltersChange] with a list that holds every other pending filter as
    it is in the pending list, unapplied edits of text filters included. *)
Theorem commits_carry_whole_pending (p : Props) (s : State) :
  onFiltersChange p = true ->
  (forall p0 evs e l,
      let reached := stateAfter (run evs) (mount p0) in
      In l (filtersCalls (callsOf (dispatch p e) reached)) ->
      l = pendingFilters (stateAfter (dispatch p e) reached))
  /\ (forall filterId value filterType,
        filterType <> TText ->
        exists committed,
          filtersCalls
            (callsOf (handleFilterValueChange p filterId value filterType) s)
          = [committed]
          /\ othersKept filterId (pendingFilters s) committed)
  /\ (forall filterId operator,
        exists committed,
          filtersCalls (callsOf (handleOperatorChange p filterId operator) s)
          = [committed]
          /\ othersKept filterId (pendingFilters s) committed)
  /\ (forall filterId,
        exists committed,
          filtersCalls (callsOf (handleRemoveFilter p filterId) s) = [committed]
          /\ othersKept filterId (pendingFilters s) committed).
Proof.
  intros Hf. split; [|split; [|split]].
  - intros p0 evs e l reached. apply dispatch_passes_pending.
    apply reachable_singleTimer.
  - intros filterId value filterType Hty.
    exists (valueChanged filterId value (pendingFilters s)).
    split; [|apply valueChanged_others].
    apply value_change_filters_calls; assumption.
  - intros filterId operator.
    exists (operatorChanged filterId operator (pendingFilters s)).
    split; [|apply operatorChanged_others].
    unfold_handlers. unfold operatorChanged. rewrite Hf. simpl.
    split_cases; reflexivity.
  - intros filterId.
    exists (List.filter (fun f => negb (af_id f =? filterId)%string)
                        (pendingFilters s)).
    split.
    + unfold_handlers. rewrite Hf. reflexivity.
    + intros f Hin Hne. apply filter_In. split; [exact Hin|].
      apply negb_true_iff. apply String.eqb_neq. exact Hne.
Qed.

(** A text edit to the name filter, still buffered, is committed by an
    operator change on the age filter. *)
Lemma commits_carry_whole_pending_witness :
  let edited :=
    stateAfter (handleFilterValueChange sampleProps "filter-1"
                  (JsString "bob") TText) (mount sampleProps) in
  callsOf (handleFilterValueChange sampleProps "filter-1"
             (JsString "bob") TText) (mount sampleProps) = []
  /\ exists committed,
       filtersCalls (callsOf (handleOperatorChange sampleProps "filter-3" OpLt)
                             edited) = [committed]
       /\ In (withValue nameFilter (JsString "bob")) committed.
Proof.
  intros edited. split; [reflexivity|].
  destruct (commits_carry_whole_pending sampleProps edited eq_refl)
    as (_ & _ & H & _).
  destruct (H "filter-3" OpLt) as (committed & Hcalls & Hkept).
  exists committed. split; [exact Hcalls|].
  apply Hkept; [simpl; auto | discriminate].
Defined.

End ToolbarFacts.

Module ControllerFacts.
Import Controller ControllerSamples.

Lemma matches_newFilter (now : Z) (index : nat) (rf : RepresentedFilter) :
  matches rf (newFilter now index rf) = true.
Proof.
  unfold matches, newFilter, sameOperator. simpl.
  rewrite String.eqb_refl, sameJSON_refl, bool_decide_eq_true_2; reflexivity.
Qed.

(** [C8] For a controller with at least one represented filter and any
    applied list, [applyFilters] makes one [onFilterChange] invocation, and
    [isActive] computed against the list it passes is true. *)
Theorem apply_then_active (now : Z) (config : FilterControllerConfig)
    (connection : FilterControllerConnection) :
  representedFilters config <> [] ->
  exists committed,
    applyFilters now config connection = [committed]
    /\ isActive config {| activeFilters := committed |} = true.
Proof.
  intros Hne. eexists. split; [reflexivity|].
  unfold isActive. simpl.
  destruct (representedFilters config) as [|rf rest] eqn:Hrfs; [contradiction|].
  simpl. apply orb_true_iff. left.
  apply existsb_exists. exists (newFilter now 0 rf).
  split; [|apply matches_newFilter].
  apply in_or_app. right. simpl. left. reflexivity.
Qed.

Lemma apply_then_active_witness :
  exists committed,
    applyFilters 1700000000000 openTab appliedSample = [committed]
    /\ isActive openTab {| activeFilters := committed |} = true.
Proof. apply (apply_then_active 1700000000000 openTab appliedSample). discriminate. Defined.

Lemma countFor_app (x : string) (l1 l2 : list ActiveFilter) :
  countFor x (l1 ++ l2) = countFor x l1 + countFor x l2.
Proof. unfold countFor. rewrite List.filter_app, length_app. reflexivity. Qed.

Lemma countFor_others (x : string) (ids : gset string) (l : list ActiveFilter) :
  countFor x (List.filter (fun af => negb (bool_decide (af_filterId af ∈ ids))) l)
  = if bool_decide (x ∈ ids) then 0 else countFor x l.
Proof.
  unfold countFor. induction l as [|af l IH]; simpl.
  - destruct (bool_decide (x ∈ ids)); reflexivity.
  - destruct (af_filterId af =? x)%string eqn:E.
    + apply String.eqb_eq in E. subst x.
      destruct (bool_decide (af_filterId af ∈ ids)) eqn:D; simpl.
      * exact IH.
      * rewrite String.eqb_refl. simpl. rewrite IH. reflexivity.
    + destruct (bool_decide (af_filterId af ∈ ids)); simpl.
      * exact IH.
      * rewrite E. exact IH.
Qed.

Lemma countFor_new (x : string) (f : nat -> RepresentedFilter -> ActiveFilter)
    (l : list RepresentedFilter) :
  (forall i rf, af_filterId (f i rf) = rf_filterId rf) ->
  countFor x (imap f l)
  = length (List.filter (fun rf => (rf_filterId rf =? x)%string) l).
Proof.
  revert f. unfold countFor. induction l as [|rf l IH]; intros f Hf; simpl.
  - reflexivity.
  - rewrite Hf. destruct (rf_filterId rf =? x)%string; simpl;
      (rewrite IH; [reflexivity | intros i rf'; apply Hf]).
Qed.

Lemma countFor_applied (now : Z) (config : FilterControllerConfig)
    (connection : FilterControllerConnection) (x : string) :
  countFor x (otherFilters config connection
              ++ imap (newFilter now) (representedFilters config))
  = (if bool_decide (x ∈ filterIds config) then 0
     else countFor x (activeFilters connection))
    + countRepresented x config.
Proof.
  rewrite countFor_app. unfold otherFilters. rewrite countFor_others.
  rewrite countFor_new by reflexivity. reflexivity.
Qed.

Lemma count_once {A} (key : A -> string) (x : string) (l : list A) :
  NoDup (List.map key l) ->
  In x (List.map key l) ->
  length (List.filter (fun a => (key a =? x)%string) l) = 1.
Proof.
  induction l as [|a l IH]; simpl; intros Hnd Hin; [contradiction|].
  apply NoDup_cons in Hnd as [Hnotin Hnd].
  destruct (key a =? x)%string eqn:E; simpl.
  - apply String.eqb_eq in E. subst x. f_equal.
    clear IH Hin Hnd. induction l as [|b l IHl]; simpl; [reflexivity|].
    destruct (key b =? key a)%string eqn:E'.
    + apply String.eqb_eq in E'. exfalso. apply Hnotin.
      rewrite list_elem_of_In. simpl. auto.
    + apply IHl. intros H. apply Hnotin. rewrite list_elem_of_In in *.
      simpl. auto.
  - apply IH; [exact Hnd|]. destruct Hin as [H|H]; [|exact H].
    apply String.eqb_neq in E. contradiction.
Qed.

(** [C9], as stated, fails: a controller that represents two entries for
    the same definition commits two filters for it. *)
Lemma apply_duplicates :
  applyFilters 1700000000000 openOrClosedTab appliedSample
  = [ [ {| af_id := "filter-1"; af_filterId := "name";
           af_operator := Some OpRegex; af_value := JsString "al" |};
        {| af_id := "status-open-1700000000000-0"; af_filterId := "status";
           af_operator := Some OpEq; af_value := JsArray [JsString "open"] |};
        {| af_id := "status-closed-1700000000000-1"; af_filterId := "status";
           af_operator := Some OpEq; af_value := JsArray [JsString "closed"] |} ] ]
  /\ ~ (forall now config connection committed x,
          applyFilters now config connection = [committed] ->
          x ∈ filterIds config ->
          countFor x committed <= 1).
Proof.
  split; [vm_compute; reflexivity|].
  intros H.
  specialize (H 1700000000000%Z openOrClosedTab appliedSample _ "status" eq_refl).
  assert (Hin : "status" ∈ filterIds openOrClosedTab).
  { apply (bool_decide_unpack _); vm_compute; exact I. }
  specialize (H Hin). vm_compute in H. lia.
Qed.

Lemma others_sublist (config : FilterControllerConfig)
    (connection : FilterControllerConnection) :
  sublist (otherFilters config connection) (activeFilters connection).
Proof.
  unfold otherFilters. induction (activeFilters connection) as [|af l IH]; simpl.
  - constructor.
  - destruct (negb (bool_decide (af_filterId af ∈ filterIds config))).
    + apply sublist_skip. exact IH.
    + apply sublist_cons. exact IH.
Qed.

Lemma others_spec (config : FilterControllerConfig)
    (connection : FilterControllerConnection) (af : ActiveFilter) :
  In af (otherFilters config connection)
  <-> In af (activeFilters connection)
      /\ ~ In (af_filterId af) (List.map rf_filterId (representedFilters config)).
Proof.
  unfold otherFilters, filterIds. rewrite filter_In, negb_true_iff.
  rewrite bool_decide_eq_false, elem_of_list_to_set, list_elem_of_In.
  reflexivity.
Qed.

Lemma new_fresh (now : Z) (l : list RepresentedFilter) :
  Forall2 freshFor l (imap (newFilter now) l).
Proof.
  assert (H : forall (f : nat -> RepresentedFilter -> ActiveFilter),
            (forall i rf, freshFor rf (f i rf)) -> Forall2 freshFor l (imap f l)).
  { induction l as [|rf l IH]; intros f Hf; simpl; constructor.
    - apply Hf.
    - apply IH. intros i rf'. apply Hf. }
  apply H. intros i rf. unfold freshFor, newFilter. simpl. auto.
Qed.

(** [C9], amended.  The list committed by [applyFilters] is made of the
    pre-existing filters whose definition is not in the represented set,
    each as it is and in their order, followed by one fresh filter per
    represented entry, in the order of the entries, carrying that entry's
    definition, operator and value.  So it holds, for a definition in the
    represented set, none of the pre-existing filters and as many fresh
    filters as the controller has represented entries for it, and for any
    other definition exactly the pre-existing filters.  When the
    represented entries name pairwise distinct definitions, it holds exactly
    one filter for each definition of the represented set. *)
Theorem apply_one_per_represented (now : Z) (config : FilterControllerConfig)
    (connection : FilterControllerConnection) :
  exists kept fresh,
    applyFilters now config connection = [kept ++ fresh]
    /\ sublist kept (activeFilters connection)
    /\ (forall af,
          In af kept
          <-> In af (activeFilters connection)
              /\ ~ In (af_filterId af)
                      (List.map rf_filterId (representedFilters config)))
    /\ (forall x,
          ~ In x (List.map rf_filterId (representedFilters config)) ->
          countFor x kept = countFor x (activeFilters connection))
    /\ Forall2 freshFor (representedFilters config) fresh
    /\ (forall x,
          countFor x (kept ++ fresh)
          = (if bool_decide (x ∈ filterIds config) then 0
             else countFor x (activeFilters connection))
            + countRepresented x config)
    /\ (forall x,
          x ∉ filterIds config ->
          countFor x (kept ++ fresh) = countFor x (activeFilters connection))
    /\ (NoDup (List.map rf_filterId (representedFilters config)) ->
        forall x, x ∈ filterIds config -> countFor x (kept ++ fresh) = 1).
Proof.
  exists (otherFilters config connection),
         (imap (newFilter now) (representedFilters config)).
  split; [reflexivity|]. split; [apply others_sublist|].
  split; [apply others_spec|]. split; [|split; [apply new_fresh|]].
  { intros x Hx. unfold otherFilters. rewrite countFor_others.
    rewrite bool_decide_eq_false_2; [reflexivity|].
    unfold filterIds. rewrite elem_of_list_to_set, list_elem_of_In. exact Hx. }
  split; [|split].
  - intros x. apply countFor_applied.
  - intros x Hx. rewrite countFor_applied.
    rewrite bool_decide_eq_false_2 by exact Hx.
    unfold countRepresented.
    assert (H0 : List.filter (fun rf => (rf_filterId rf =? x)%string)
                   (representedFilters config) = []).
    { unfold filterIds in Hx. rewrite elem_of_list_to_set, list_elem_of_In in Hx.
      induction (representedFilters config) as [|rf l IH]; simpl; [reflexivity|].
      destruct (rf_filterId rf =? x)%string eqn:E.
      - apply String.eqb_eq in E. exfalso. apply Hx. simpl. auto.
      - apply IH. intros H. apply Hx. simpl. auto. }
    rewrite H0. simpl. lia.
  - intros Hnd x Hx. rewrite countFor_applied.
    rewrite bool_decide_eq_true_2 by exact Hx. simpl.
    unfold countRepresented. apply count_once; [exact Hnd|].
    unfold filterIds in Hx. rewrite elem_of_list_to_set, list_elem_of_In in Hx.
    exact Hx.
Qed.

(** A tab for open items of people over 30, applied over a name filter and
    a stale status filter: the name filter is kept, the stale status filter
    is gone, and one fresh filter per entry follows. *)
Lemma apply_one_per_represented_witness :
  applyFilters 1700000000000 openTab appliedSample
  = [[ {| af_id := "filter-1"; af_filterId := "name";
          af_operator := Some OpRegex; af_value := JsString "al" |};
       {| af_id := "status-open-1700000000000-0"; af_filterId := "status";
          af_operator := Some OpEq; af_value := JsArray [JsString "open"] |};
       {| af_id := "age-30-1700000000000-1"; af_filterId := "age";
          af_operator := Some OpGt; af_value := JsNumber 30 |} ]]
  /\ exists kept fresh,
       applyFilters 1700000000000 openTab appliedSample = [kept ++ fresh]
       /\ Forall2 freshFor (representedFilters openTab) fresh
       /\ countFor "status" (kept ++ fresh) = 1
       /\ countFor "age" (kept ++ fresh) = 1
       /\ countFor "name" (kept ++ fresh) = 1.
Proof.
  split; [vm_compute; reflexivity|].
  destruct (apply_one_per_represented 1700000000000 openTab appliedSample)
    as (kept & fresh & Hc & _ & _ & _ & Hfresh & Hcount & _ & Hone).
  exists kept, fresh. split; [exact Hc|]. split; [exact Hfresh|].
  assert (Hnd : NoDup (List.map rf_filterId (representedFilters openTab))).
  { apply (bool_decide_unpack _); vm_compute; exact I. }
  repeat split.
  - apply (Hone Hnd). apply (bool_decide_unpack _); vm_compute; exact I.
  - apply (Hone Hnd). apply (bool_decide_unpack _); vm_compute; exact I.
  - rewrite Hcount. reflexivity.
Defined.

End ControllerFacts.

(** * Further properties of the toolbar *)

Module ToolbarMore.
Import Toolbar Observations MoreObservations ToolbarSamples ToolbarFacts.

Lemma callsOf_bind {A B} (m : M A) (f : A -> M B) (s : State) :
  callsOf (m ≫= f) s
  = callsOf m s ++ callsOf (f (fst (fst (m s)))) (stateAfter m s).
Proof.
  unfold callsOf, stateAfter, mbind, M_bind.
  destruct (m s) as [[x s1] t1]. simpl.
  destruct (f x s1) as [[y s2] t2]. reflexivity.
Qed.

Lemma run_cons_state (p : Props) (e : Event) (rest : list (Props * Event))
    (s : State) :
  stateAfter (run ((p, e) :: rest)) s
  = stateAfter (run rest) (stateAfter (dispatch p e) s).
Proof. simpl. rewrite stateAfter_bind. reflexivity. Qed.

Lemma run_cons_calls (p : Props) (e : Event) (rest : list (Props * Event))
    (s : State) :
  callsOf (run ((p, e) :: rest)) s
  = callsOf (dispatch p e) s ++ callsOf (run rest) (stateAfter (dispatch p e) s).
Proof. simpl. rewrite callsOf_bind. reflexivity. Qed.

Lemma search_input_silent (p : Props) (v : string) (s : State) :
  callsOf (handleSearchInputChange p v) s = [].
Proof. unfold_handlers. simpl. destruct (searchDebounceRef s); reflexivity. Qed.

Lemma typing_burst (p : Props) (texts : list string) (last : string) (s : State) :
  singleTimer s ->
  let s' := stateAfter (run (typing p (texts ++ [last]))) s in
  callsOf (run (typing p (texts ++ [last]))) s = []
  /\ localSearchValue s' = last
  /\ exists id, timeouts s' = [lastTimer p id last]
                /\ searchDebounceRef s' = Some id.
Proof.
  revert s. induction texts as [|v texts IH]; intros s Hs; simpl typing.
  - rewrite run_cons_calls, run_cons_state. simpl dispatch. simpl run.
    rewrite search_input_silent.
    destruct (search_input_reschedules p last s Hs) as (Ht & Href & Hl).
    split; [reflexivity|]. split; [exact Hl|].
    exists (nextTimeout s). split; [exact Ht | exact Href].
  - rewrite run_cons_calls, run_cons_state. simpl dispatch.
    rewrite search_input_silent. simpl app.
    apply IH. apply preserves_handleSearchInputChange. exact Hs.
Qed.

(** [X1] Debounce.  In any state a toolbar can reach, a burst of
    keystrokes in the search box invokes no callback and leaves exactly one
    live timeout; when that timeout elapses, [onSearchChange] is invoked
    exactly once, with the text of the last keystroke, and no timeout is
    left.  No intermediate text is ever passed on. *)
Theorem debounce_last_keystroke (p0 : Props) (evs : list (Props * Event))
    (p : Props) (texts : list string) (last : string) :
  onSearchChange p = true ->
  let reached := stateAfter (run evs) (mount p0) in
  let typed := stateAfter (run (typing p (texts ++ [last]))) reached in
  callsOf (run (typing p (texts ++ [last]))) reached = []
  /\ exists id,
       timeouts typed = [lastTimer p id last]
       /\ callsOf (runTimeout id) typed = [SearchChange last]
       /\ timeouts (stateAfter (runTimeout id) typed) = []
       /\ forall id', id' <> id -> callsOf (runTimeout id') typed = [].
Proof.
  intros Hcb reached typed.
  destruct (typing_burst p texts last reached (reachable_singleTimer p0 evs))
    as (Hcalls & _ & id & Ht & _).
  fold typed in Ht. split; [exact Hcalls|].
  exists id. split; [exact Ht|].
  unfold callsOf, stateAfter, runTimeout. rewrite Ht. simpl.
  rewrite Nat.eqb_refl. simpl. unfold debounced. rewrite Hcb.
  split; [reflexivity|]. split; [reflexivity|].
  intros id' Hne. destruct (Nat.eqb id id') eqn:E; [|reflexivity].
  apply Nat.eqb_eq in E. congruence.
Qed.

Lemma debounce_last_keystroke_witness :
  let typed := stateAfter (run (typing sampleProps ["a"; "ab"; "abc"]))
                          (mount sampleProps) in
  callsOf (run (typing sampleProps ["a"; "ab"; "abc"])) (mount sampleProps) = []
  /\ exists id,
       timeouts typed = [lastTimer sampleProps id "abc"]
       /\ callsOf (runTimeout id) typed = [SearchChange "abc"]
       /\ timeouts (stateAfter (runTimeout id) typed) = []
       /\ forall id', id' <> id -> callsOf (runTimeout id') typed = [].
Proof.
  exact (debounce_last_keystroke sampleProps [] sampleProps ["a"; "ab"] "abc"
           eq_refl).
Defined.



(** [X3] Unmount.  In any state a toolbar can reach, after the unmount
    cleanup no timeout is live and no elapsing timeout invokes a callback;
    the cleanup itself invokes none. *)
Theorem unmount_no_late_call (p0 : Props) (evs : list (Props * Event)) :
  let reached := stateAfter (run evs) (mount p0) in
  callsOf unmount reached = []
  /\ timeouts (stateAfter unmount reached) = []
  /\ forall id, callsOf (runTimeout id) (stateAfter unmount reached) = [].
Proof.
  intros reached. split; [|split].
  - unfold_handlers. destruct (searchDebounceRef reached); reflexivity.
  - apply unmount_cancels, reachable_singleTimer.
  - intros id. apply unmount_silences, reachable_singleTimer.
Qed.

Lemma findDef_id (p : Props) (filterId : string) (d : AvailableFilter) :
  findDef p filterId = Some d -> fd_id d = filterId.
Proof.
  unfold findDef. intros H. apply find_some in H as [_ H].
  apply String.eqb_eq in H. exact H.
Qed.

(** [X4] Nothing left to apply.  Once the applied search text and the
    applied filters are the ones the toolbar holds (in particular right
    after mounting), no change is reported as unapplied, and Apply Filters
    invokes no callback and changes nothing. *)
Theorem apply_nothing_pending (p : Props) (s : State) :
  hasUnappliedSearchChange (adopted p s) s = false
  /\ hasUnappliedFilterChanges (adopted p s) s = false
  /\ callsOf (handleApplyFilters (adopted p s)) s = []
  /\ stateAfter (handleApplyFilters (adopted p s)) s = s
  /\ callsOf (handleApplyFilters p) (mount p) = [].
Proof.
  assert (H1 : hasUnappliedSearchChange (adopted p s) s = false).
  { unfold hasUnappliedSearchChange, adopted. cbn [searchValue].
    rewrite String.eqb_refl. reflexivity. }
  assert (H2 : hasUnappliedFilterChanges (adopted p s) s = false).
  { unfold hasUnappliedFilterChanges, adopted. cbn [activeFilters].
    rewrite sameJSON_refl. reflexivity. }
  assert (H3 : hasUnappliedSearchChange p (mount p) = false).
  { unfold hasUnappliedSearchChange, mount. cbn [localSearchValue].
    rewrite String.eqb_refl. reflexivity. }
  assert (H4 : hasUnappliedFilterChanges p (mount p) = false).
  { unfold hasUnappliedFilterChanges, mount. cbn [pendingFilters].
    rewrite sameJSON_refl. reflexivity. }
  split; [exact H1|]. split; [exact H2|].
  unfold_handlers. rewrite H1, H2, H3, H4. simpl.
  split; [reflexivity|]. split; reflexivity.
Qed.

Lemma add_filter_state (p : Props) (now : Z) (filterId : string) (s : State)
    (filterDef : AvailableFilter) :
  filterId <> EmptyString ->
  findDef p filterId = Some filterDef ->
  pendingFilters (stateAfter (handleAddFilter p now filterId) s)
  = pendingFilters s ++ [addedFilter now filterDef].
Proof.
  intros Hne Hdef. unfold_handlers. apply String.eqb_neq in Hne.
  rewrite Hne, Hdef. simpl.
  unfold addedFilter. rewrite (findDef_id p filterId filterDef Hdef).
  reflexivity.
Qed.



Lemma filter_keeps_all {A} (f : A -> bool) (l : list A) :
  (forall x, In x l -> f x = true) -> List.filter f l = l.
Proof.
  induction l as [|a l IH]; simpl; intros H; [reflexivity|].
  rewrite (H a) by auto. f_equal. apply IH. intros x Hx. apply H. auto.
Qed.

Lemma remove_filter_effect (p : Props) (filterId : string) (s : State) :
  onFiltersChange p = true ->
  let kept := List.filter (fun f => negb (af_id f =? filterId)%string)
                          (pendingFilters s) in
  pendingFilters (stateAfter (handleRemoveFilter p filterId) s) = kept
  /\ callsOf (handleRemoveFilter p filterId) s = [FiltersChange kept].
Proof.
  intros Hcb kept. subst kept. unfold_handlers. rewrite Hcb. simpl.
  split; reflexivity.
Qed.

(** [X6] Adding a filter and removing it again.  When no pending filter
    already carries the identity the new filter gets, removing the new
    filter restores the pending list, and [onFiltersChange] receives the
    list as it was before the addition. *)
Theorem add_then_remove (p : Props) (now : Z) (filterId : string) (s : State)
    (filterDef : AvailableFilter) :
  onFiltersChange p = true ->
  filterId <> EmptyString ->
  findDef p filterId = Some filterDef ->
  (forall f, In f (pendingFilters s) -> af_id f <> af_id (addedFilter now filterDef)) ->
  let added := stateAfter (handleAddFilter p now filterId) s in
  let remove := handleRemoveFilter p (af_id (addedFilter now filterDef)) in
  pendingFilters (stateAfter remove added) = pendingFilters s
  /\ callsOf remove added = [FiltersChange (pendingFilters s)].
Proof.
  intros Hcb Hne Hdef Hfresh added remove.
  pose proof (add_filter_state p now filterId s filterDef Hne Hdef) as Hadded.
  fold added in Hadded.
  assert (Hfilter :
    List.filter (fun f => negb (af_id f =? af_id (addedFilter now filterDef))%string)
                (pendingFilters added) = pendingFilters s).
  { rewrite Hadded, List.filter_app. simpl. rewrite String.eqb_refl. simpl.
    rewrite app_nil_r. apply filter_keeps_all. intros f Hin.
    apply negb_true_iff, String.eqb_neq, Hfresh, Hin. }
  subst remove.
  destruct (remove_filter_effect p (af_id (addedFilter now filterDef)) added Hcb)
    as (Hstate & Hcalls).
  rewrite Hstate, Hcalls, Hfilter. split; reflexivity.
Qed.

Lemma add_then_remove_witness :
  let added := stateAfter (handleAddFilter clearedProps 1700000000000 "age")
                          (mount clearedProps) in
  callsOf (handleRemoveFilter clearedProps "filter-1700000000000") added
  = [FiltersChange []].
Proof.
  intros added.
  apply (add_then_remove clearedProps 1700000000000 "age" (mount clearedProps)
           ageDef); try reflexivity; try discriminate.
  intros f [].
Defined.

Lemma filter_sublist_of {A} (f : A -> bool) (l : list A) :
  sublist (List.filter f l) l.
Proof.
  induction l as [|a l IH]; simpl; [constructor|].
  destruct (f a).
  - apply sublist_skip. exact IH.
  - apply sublist_cons. exact IH.
Qed.

(** [X7] Removing a filter.  After a removal no pending filter carries the
    removed identity, the pending list is a sub-list of the previous one in
    the same order, and removing the same identity again passes the same
    list once more. *)
Theorem remove_filter_gone (p : Props) (filterId : string) (s : State) :
  onFiltersChange p = true ->
  let removed := stateAfter (handleRemoveFilter p filterId) s in
  Forall (fun f => af_id f <> filterId) (pendingFilters removed)
  /\ sublist (pendingFilters removed) (pendingFilters s)
  /\ callsOf (handleRemoveFilter p filterId) removed
     = callsOf (handleRemoveFilter p filterId) s
  /\ stateAfter (handleRemoveFilter p filterId) removed = removed.
Proof.
  intros Hcb removed. subst removed. unfold_handlers. rewrite Hcb. simpl.
  assert (Hgone : Forall (fun f => af_id f <> filterId)
                    (List.filter (fun f => negb (af_id f =? filterId)%string)
                                 (pendingFilters s))).
  { apply Forall_forall. intros f Hin. rewrite list_elem_of_In in Hin.
    apply filter_In in Hin as [_ Hin].
    apply negb_true_iff, String.eqb_neq in Hin. exact Hin. }
  assert (Hidem :
    List.filter (fun f => negb (af_id f =? filterId)%string)
      (List.filter (fun f => negb (af_id f =? filterId)%string) (pendingFilters s))
    = List.filter (fun f => negb (af_id f =? filterId)%string) (pendingFilters s)).
  { apply filter_keeps_all. intros f Hin. apply filter_In in Hin as [_ Hin].
    exact Hin. }
  split; [exact Hgone|]. split.
  - apply filter_sublist_of.
  - rewrite Hidem. split; reflexivity.
Qed.

Lemma remove_filter_gone_witness :
  pendingFilters (stateAfter (handleRemoveFilter sampleProps "filter-2")
                             (mount sampleProps))
  = [nameFilter; ageFilter; createdFilter]
  /\ Forall (fun f => af_id f <> "filter-2")
       (pendingFilters (stateAfter (handleRemoveFilter sampleProps "filter-2")
                                   (mount sampleProps))).
Proof.
  split; [reflexivity|].
  apply (remove_filter_gone sampleProps "filter-2" (mount sampleProps) eq_refl).
Defined.

(** [X8] A buffered edit is signalled.  After a value change on a pending
    filter whose definition is of type text, number or numberrange, if the
    new value serializes differently from the value of the applied filter of
    the same definition (or no such filter is applied and the value is not
    [undefined]), the toolbar reports pending text filters, which shows the
    Apply Filters action. *)
Theorem text_edit_signalled (p : Props) (s : State) (filterId : string)
    (value : JsValue) (filterType : FilterFieldType) (pf : ActiveFilter)
    (filterDef : AvailableFilter) :
  In pf (pendingFilters s) ->
  af_id pf = filterId ->
  findDef p (af_filterId pf) = Some filterDef ->
  isTextBased (fd_type filterDef) = true ->
  sameJSON (stringify value) (stringify (appliedValue p (af_filterId pf))) = false ->
  let s' := stateAfter (handleFilterValueChange p filterId value filterType) s in
  hasPendingTextFilters p s' = true /\ hasUnappliedTextChanges p s' = true.
Proof.
  intros Hin Hid Hdef Htext Hdiff s'.
  assert (H : hasPendingTextFilters p s' = true).
  { unfold hasPendingTextFilters. subst s'.
    destruct (value_change_state p s filterId value filterType) as (Hp & _).
    rewrite Hp. apply existsb_exists. exists (withValue pf value). split.
    - unfold valueChanged. apply in_map_iff. exists pf. split; [|exact Hin].
      rewrite Hid, String.eqb_refl. reflexivity.
    - cbn [af_filterId af_value withValue]. rewrite Hdef, Htext.
      cbn [negb]. unfold appliedValue in Hdiff. rewrite Hdiff. reflexivity. }
  split; [exact H|]. unfold hasUnappliedTextChanges. rewrite H.
  apply orb_true_r.
Qed.

Lemma text_edit_signalled_witness :
  hasPendingTextFilters sampleProps (mount sampleProps) = false
  /\ hasPendingTextFilters sampleProps
       (stateAfter (handleFilterValueChange sampleProps "filter-1"
                      (JsString "bob") TText) (mount sampleProps)) = true.
Proof.
  split; [reflexivity|].
  apply (text_edit_signalled sampleProps (mount sampleProps) "filter-1"
           (JsString "bob") TText nameFilter nameDef);
    try reflexivity.
  simpl. auto.
Defined.

Lemma find_self {A} (key : A -> string) (l : list A) (x : A) :
  NoDup (List.map key l) ->
  In x l ->
  List.find (fun y => (key y =? key x)%string) l = Some x.
Proof.
  induction l as [|a l IH]; simpl; intros Hnd Hin; [contradiction|].
  apply NoDup_cons in Hnd as [Hnotin Hnd].
  destruct Hin as [-> | Hin].
  - rewrite String.eqb_refl. reflexivity.
  - destruct (key a =? key x)%string eqn:E.
    + apply String.eqb_eq in E. exfalso. apply Hnotin.
      rewrite list_elem_of_In, E. apply in_map. exact Hin.
    + apply IH; assumption.
Qed.

Lemma no_pending_text_when_adopted (p : Props) (s : State) :
  NoDup (List.map af_filterId (pendingFilters s)) ->
  hasPendingTextFilters (adopted p s) s = false.
Proof.
  intros Hnd. unfold hasPendingTextFilters.
  apply not_true_is_false. intros H. apply existsb_exists in H as (pf & Hin & H).
  change (activeFilters (adopted p s)) with (pendingFilters s) in H.
  rewrite (find_self af_filterId (pendingFilters s) pf Hnd Hin) in H.
  rewrite sameJSON_refl in H.
  destruct (findDef (adopted p s) (af_filterId pf)) as [d|]; [|discriminate].
  destruct (negb (isTextBased (fd_type d))); discriminate.
Qed.

(** [X9] No indicator without an edit.  When the pending filters name
    pairwise distinct definitions and the parent has taken over what the
    toolbar holds, no pending text filter and no unapplied text change is
    reported; this is the case right after mounting when the applied
    filters name pairwise distinct definitions. *)
Theorem no_indicator_when_adopted (p : Props) (s : State) :
  (NoDup (List.map af_filterId (pendingFilters s)) ->
   hasPendingTextFilters (adopted p s) s = false
   /\ hasUnappliedTextChanges (adopted p s) s = false)
  /\ (NoDup (List.map af_filterId (activeFilters p)) ->
      hasPendingTextFilters p (mount p) = false
      /\ hasUnappliedTextChanges p (mount p) = false).
Proof.
  assert (Hgen : forall q t,
            NoDup (List.map af_filterId (pendingFilters t)) ->
            hasPendingTextFilters (adopted q t) t = false
            /\ hasUnappliedTextChanges (adopted q t) t = false).
  { intros q t Hnd.
    assert (H1 := no_pending_text_when_adopted q t Hnd).
    split; [exact H1|].
    unfold hasUnappliedTextChanges. rewrite H1.
    unfold hasUnappliedSearchChange, adopted. cbn [searchValue].
    rewrite String.eqb_refl. reflexivity. }
  split; [apply Hgen|].
  intros Hnd.
  assert (Hm : adopted p (mount p) = p) by (destruct p; reflexivity).
  pose proof (Hgen p (mount p) Hnd) as H. rewrite Hm in H. exact H.
Qed.

Lemma no_indicator_when_adopted_witness :
  hasUnappliedTextChanges sampleProps (mount sampleProps) = false.
Proof.
  assert (Hnd : NoDup (List.map af_filterId (activeFilters sampleProps))).
  { apply (bool_decide_unpack _); vm_compute; exact I. }
  destruct (no_indicator_when_adopted sampleProps (mount sampleProps))
    as (_ & H).
  apply (H Hnd).
Defined.

(** Two applied filters of one text definition: the second is compared with
    the first, and the indicator is on although nothing was edited. *)
Example indicator_with_duplicates :
  let twice :=
    {| searchValue := EmptyString; onSearchChange := true;
       availableFilters := [nameDef];
       activeFilters :=
         [ nameFilter;
           {| af_id := "filter-9"; af_filterId := "name";
              af_operator := Some OpRegex; af_value := JsString "bo" |} ];
       onFiltersChange := true |} in
  hasPendingTextFilters twice (mount twice) = true.
Proof. reflexivity. Qed.

Lemma resetOperator_idempotent (p : Props) (f : ActiveFilter) :
  resetOperator p (resetOperator p f) = resetOperator p f.
Proof.
  unfold resetOperator.
  destruct (findDef p (af_filterId f)) as [d|] eqn:Hd.
  - cbn [af_filterId withOperator]. rewrite Hd. reflexivity.
  - rewrite Hd. reflexivity.
Qed.

(** [X10] Filter mode.  Switching to advanced invokes no callback and
    leaves the pending list as it is.  Switching to basic a second time
    passes the pending list unchanged: the reset of the operators is
    idempotent. *)
Theorem mode_change_settles (p : Props) (s : State) :
  onFiltersChange p = true ->
  let basic := stateAfter (handleFilterModeChange p Basic) s in
  callsOf (handleFilterModeChange p Advanced) s = []
  /\ pendingFilters (stateAfter (handleFilterModeChange p Advanced) s)
     = pendingFilters s
  /\ callsOf (handleFilterModeChange p Basic) basic
     = [FiltersChange (pendingFilters basic)]
  /\ pendingFilters (stateAfter (handleFilterModeChange p Basic) basic)
     = pendingFilters basic.
Proof.
  intros Hcb basic. subst basic. unfold_handlers. rewrite Hcb. simpl.
  assert (H : List.map (resetOperator p)
                (List.map (resetOperator p) (pendingFilters s))
              = List.map (resetOperator p) (pendingFilters s)).
  { rewrite List.map_map. apply List.map_ext. intros f.
    apply resetOperator_idempotent. }
  rewrite H. repeat split.
Qed.

Lemma mode_change_settles_witness :
  let basic := stateAfter (handleFilterModeChange sampleProps Basic)
                          advancedState in
  callsOf (handleFilterModeChange sampleProps Basic) basic
  = [FiltersChange (pendingFilters basic)].
Proof.
  intros basic.
  apply (mode_change_settles sampleProps advancedState eq_refl).
Defined.

(** [X11] Edits keep the shape of the pending list.  A value change keeps
    the identity, the definition and the operator of every pending filter;
    an operator change keeps the identity, the definition and the value of
    every pending filter; neither adds, drops or reorders filters. *)
Theorem edits_keep_shape (p : Props) (s : State) (filterId : string) :
  (forall value filterType,
      let l := pendingFilters
                 (stateAfter (handleFilterValueChange p filterId value filterType) s) in
      List.map af_id l = List.map af_id (pendingFilters s)
      /\ List.map af_filterId l = List.map af_filterId (pendingFilters s)
      /\ List.map af_operator l = List.map af_operator (pendingFilters s))
  /\ (forall operator,
        let l := pendingFilters
                   (stateAfter (handleOperatorChange p filterId operator) s) in
        List.map af_id l = List.map af_id (pendingFilters s)
        /\ List.map af_filterId l = List.map af_filterId (pendingFilters s)
        /\ List.map af_value l = List.map af_value (pendingFilters s)).
Proof.
  split.
  - intros value filterType l. subst l.
    destruct (value_change_state p s filterId value filterType) as (-> & _).
    unfold valueChanged. rewrite !List.map_map.
    repeat split; apply List.map_ext; intros f;
      destruct (af_id f =? filterId)%string; reflexivity.
  - intros operator l. subst l.
    destruct (operator_change_state p s filterId operator) as (-> & _).
    unfold operatorChanged. rewrite !List.map_map.
    repeat split; apply List.map_ext; intros f;
      destruct (af_id f =? filterId)%string; reflexivity.
Qed.

End ToolbarMore.

(** * Column visibility *)

Module ColumnsFacts.
Import Columns.

Lemma includes_In (l : list string) (id : string) :
  includes l id = true <-> In id l.
Proof.
  unfold includes. rewrite existsb_exists. split.
  - intros (c & Hin & Heq). apply String.eqb_eq in Heq. subst c. exact Hin.
  - intros Hin. exists id. split; [exact Hin | apply String.eqb_refl].
Qed.

Lemma includes_without (l : list string) (id id' : string) :
  includes (without l id) id' = includes l id' && negb (id' =? id)%string.
Proof.
  unfold includes, without. induction l as [|c l IH]; simpl; [reflexivity|].
  destruct (c =? id)%string eqn:E; simpl.
  - rewrite IH. apply String.eqb_eq in E. subst c.
    destruct (id =? id')%string eqn:E'; simpl; [|reflexivity].
    apply String.eqb_eq in E'. subst id'. rewrite String.eqb_refl. simpl.
    rewrite andb_false_r. reflexivity.
  - rewrite IH. destruct (c =? id')%string eqn:E'; simpl; [|reflexivity].
    apply String.eqb_eq in E'. subst id'. rewrite E. reflexivity.
Qed.

Lemma includes_app (l : list string) (id id' : string) :
  includes (l ++ [id]) id' = includes l id' || (id =? id')%string.
Proof.
  unfold includes. rewrite existsb_app. simpl. rewrite orb_false_r. reflexivity.
Qed.

Lemma rowClick_flips (visibleColumns : list string) (columnId : string) :
  includes (rowClick visibleColumns columnId) columnId
  = negb (includes visibleColumns columnId).
Proof.
  unfold rowClick. destruct (includes visibleColumns columnId) eqn:Hinc; simpl.
  - rewrite includes_without, String.eqb_refl. apply andb_false_r.
  - rewrite includes_app, String.eqb_refl. apply orb_true_r.
Qed.

(** [X12] Toggling a column.  A click on a column's row passes a list in
    which that column's visibility is flipped and every other column's is
    unchanged; a list free of duplicates stays so; and the row's checkbox,
    whose new state is the negation of the column's visibility, passes the
    same list. *)
Theorem column_toggle (visibleColumns : list string) (columnId : string) :
  includes (rowClick visibleColumns columnId) columnId
  = negb (includes visibleColumns columnId)
  /\ (forall other,
        other <> columnId ->
        includes (rowClick visibleColumns columnId) other
        = includes visibleColumns other)
  /\ (NoDup visibleColumns -> NoDup (rowClick visibleColumns columnId))
  /\ onCheckedChange visibleColumns columnId
       (negb (includes visibleColumns columnId))
     = rowClick visibleColumns columnId.
Proof.
  split; [apply rowClick_flips|].
  unfold rowClick, onCheckedChange.
  destruct (includes visibleColumns columnId) eqn:Hinc; simpl.
  - split; [|split].
    + intros other Hne. rewrite includes_without.
      apply String.eqb_neq in Hne. rewrite Hne. apply andb_true_r.
    + intros Hnd. unfold without. apply NoDup_ListNoDup.
      apply List.NoDup_filter. apply NoDup_ListNoDup. exact Hnd.
    + reflexivity.
  - split; [|split].
    + intros other Hne. rewrite includes_app.
      assert (E : (columnId =? other)%string = false).
      { apply String.eqb_neq. congruence. }
      rewrite E. apply orb_false_r.
    + intros Hnd. apply NoDup_app. split; [exact Hnd|]. split.
      * intros x Hx Hx'. apply list_elem_of_In in Hx.
        apply list_elem_of_In in Hx'. simpl in Hx'. destruct Hx' as [<-|[]].
        apply includes_In in Hx. congruence.
      * apply NoDup_singleton.
    + reflexivity.
Qed.

Lemma column_toggle_witness :
  rowClick ["name"; "email"; "role"] "email" = ["name"; "role"]
  /\ NoDup (rowClick ["name"; "email"; "role"] "email").
Proof.
  split; [reflexivity|].
  destruct (column_toggle ["name"; "email"; "role"] "email") as (_ & _ & H & _).
  apply H. apply (bool_decide_unpack _); vm_compute; exact I.
Defined.

(** [X13] Toggling a column twice.  A column is shown after hiding it and
    showing it again, and hidden after showing it and hiding it again; in
    the second case the list passed is the original one. *)
Theorem column_toggle_twice (visibleColumns : list string) (columnId : string) :
  includes (rowClick (rowClick visibleColumns columnId) columnId) columnId
  = includes visibleColumns columnId
  /\ (includes visibleColumns columnId = false ->
      rowClick (rowClick visibleColumns columnId) columnId = visibleColumns).
Proof.
  split.
  - rewrite !rowClick_flips. apply negb_involutive.
  - intros Hinc. unfold rowClick at 2. rewrite Hinc.
    unfold rowClick. rewrite includes_app, String.eqb_refl, orb_true_r.
    unfold without. rewrite List.filter_app. simpl.
    rewrite String.eqb_refl. simpl. rewrite app_nil_r.
    induction visibleColumns as [|c l IH]; simpl; [reflexivity|].
    unfold includes in Hinc. simpl in Hinc.
    apply orb_false_iff in Hinc as [Hc Hl].
    rewrite Hc. simpl. f_equal. apply IH. exact Hl.
Qed.

Lemma column_toggle_twice_witness :
  rowClick (rowClick ["name"; "role"] "email") "email" = ["name"; "role"].
Proof.
  apply (column_toggle_twice ["name"; "role"] "email"). reflexivity.
Defined.

End ColumnsFacts.

(** * Export *)

Module ExportFacts.
Import ExportFlow.

(** [X14] The export dialog.  With the email method and no address, the
    Export button is disabled and pressing it does nothing.  Otherwise
    exactly one [onExport] is issued, followed by closing the dialog, and
    the dialog is reset; an email export always carries a non-empty
    address, a download export carries none. *)
Theorem export_needs_address (s : DialogState) :
  (blocked s = true -> handleExport s = (s, []))
  /\ (blocked s = false ->
      exists sendEmail address,
        handleExport s = (initial, [OnExport sendEmail address; OnOpenChange false])
        /\ sendEmail = isEmail (exportMethod s)
        /\ (sendEmail = true -> address = Some (email s) /\ email s <> EmptyString)
        /\ (sendEmail = false -> address = None)).
Proof.
  unfold handleExport. split.
  - intros ->. reflexivity.
  - intros Hb. rewrite Hb. unfold blocked in Hb.
    eexists _, _. split; [reflexivity|]. split; [reflexivity|].
    destruct (isEmail (exportMethod s)); simpl in *.
    + split; [|discriminate]. intros _. split; [reflexivity|].
      apply String.eqb_neq. exact Hb.
    + split; [discriminate | reflexivity].
Qed.

Lemma export_needs_address_witness :
  handleExport {| exportMethod := Email; email := EmptyString |}
  = ({| exportMethod := Email; email := EmptyString |}, [])
  /\ handleExport {| exportMethod := Email; email := "a@b.c" |}
     = (initial, [OnExport true (Some "a@b.c"); OnOpenChange false]).
Proof.
  split.
  - apply (export_needs_address {| exportMethod := Email; email := EmptyString |}).
    reflexivity.
  - reflexivity.
Defined.

Lemma submit_blocked (exportType : ExportType) (onExportAll onExportResults : bool)
    (s : DialogState) :
  blocked s = true -> submit exportType onExportAll onExportResults s = [].
Proof. intros H. unfold submit, handleExport. rewrite H. reflexivity. Qed.

Lemma submit_unblocked (exportType : ExportType)
    (onExportAll onExportResults : bool) (s : DialogState) :
  blocked s = false ->
  submit exportType onExportAll onExportResults s
  = onExport exportType onExportAll onExportResults
             (isEmail (exportMethod s))
             (if isEmail (exportMethod s) then Some (email s) else None).
Proof.
  intros H. unfold submit, handleExport. rewrite H. simpl.
  apply app_nil_r.
Qed.

Lemma unblocked_address (s : DialogState) :
  blocked s = false ->
  isEmail (exportMethod s) = true ->
  exists a, (if isEmail (exportMethod s) then Some (email s) else None) = Some a
            /\ a <> EmptyString.
Proof.
  intros Hb Hm. unfold blocked in Hb. rewrite Hm in *. simpl in Hb.
  exists (email s). split; [reflexivity|]. apply String.eqb_neq. exact Hb.
Qed.

(** [X15] Export routing.  Whatever the dialog's state, pressing Export
    reaches at most one of the parent's callbacks: [onExportAll] only for
    the export type 'all', [onExportResults] only for 'results', none for
    'selection' or when the callback is not supplied; and a request with
    [sendEmail] carries a non-empty address. *)
Theorem export_routing (exportType : ExportType) (onExportAll onExportResults : bool)
    (s : DialogState) :
  length (submit exportType onExportAll onExportResults s) <= 1
  /\ (forall sendEmail address,
        In (ExportAll sendEmail address)
           (submit exportType onExportAll onExportResults s) ->
        exportType = All /\ onExportAll = true
        /\ (sendEmail = true -> exists a, address = Some a /\ a <> EmptyString))
  /\ (forall sendEmail address,
        In (ExportResults sendEmail address)
           (submit exportType onExportAll onExportResults s) ->
        exportType = Results /\ onExportResults = true
        /\ (sendEmail = true -> exists a, address = Some a /\ a <> EmptyString))
  /\ (blocked s = false -> exportType = All -> onExportAll = true ->
      exists sendEmail address,
        submit exportType onExportAll onExportResults s
        = [ExportAll sendEmail address]).
Proof.
  destruct (blocked s) eqn:Hb.
  - rewrite submit_blocked by exact Hb. simpl.
    split; [lia|]. split; [intros ? ? []|]. split; [intros ? ? []|].
    discriminate.
  - rewrite submit_unblocked by exact Hb.
    pose proof (unblocked_address s Hb) as Haddr.
    unfold onExport. split; [|split; [|split]].
    + destruct exportType, onExportAll, onExportResults; simpl; lia.
    + intros sendEmail address Hin.
      destruct exportType, onExportAll; simpl in Hin;
        try contradiction;
        try (destruct onExportResults; simpl in Hin);
        try contradiction;
        destruct Hin as [H|[]]; try discriminate H.
      all: injection H as <- <-.
      all: split; [reflexivity|]; split; [reflexivity|]; exact Haddr.
    + intros sendEmail address Hin.
      destruct exportType, onExportResults; simpl in Hin;
        try contradiction;
        try (destruct onExportAll; simpl in Hin);
        try contradiction;
        destruct Hin as [H|[]]; try discriminate H.
      all: injection H as <- <-.
      all: split; [reflexivity|]; split; [reflexivity|]; exact Haddr.
    + intros _ -> ->. eexists _, _. reflexivity.
Qed.

Lemma export_routing_witness :
  submit All true true {| exportMethod := Email; email := "a@b.c" |}
  = [ExportAll true (Some "a@b.c")]
  /\ submit Results true true {| exportMethod := Download; email := "x" |}
     = [ExportResults false None]
  /\ length (submit Selection true true initial) <= 1.
Proof.
  split; [reflexivity|]. split; [reflexivity|].
  apply (export_routing Selection true true initial).
Defined.

End ExportFacts.

(** * The values the field renderer emits *)

Module FieldRendererFacts.
Import Toolbar FieldRenderer.

Lemma values_without_includes (l : list JsValue) (s s' : string) :
  includesString (withoutString l s) s' = includesString l s' && negb (s' =? s)%string.
Proof.
  unfold includesString, withoutString. induction l as [|v l IH]; simpl; [reflexivity|].
  destruct (isString s v) eqn:E; simpl.
  - rewrite IH. destruct v; simpl in E; try discriminate.
    apply String.eqb_eq in E. subst. simpl.
    destruct (s =? s')%string eqn:E'; simpl; [|reflexivity].
    apply String.eqb_eq in E'. subst. rewrite String.eqb_refl. simpl.
    rewrite andb_false_r. reflexivity.
  - rewrite IH. destruct (isString s' v) eqn:E'; simpl; [|reflexivity].
    destruct v; simpl in E, E'; try discriminate.
    apply String.eqb_eq in E'. subst. rewrite E. reflexivity.
Qed.

Lemma values_app_includes (l : list JsValue) (s s' : string) :
  includesString (l ++ [JsString s]) s' = includesString l s' || (s =? s')%string.
Proof.
  unfold includesString. rewrite existsb_app. simpl. rewrite orb_false_r. reflexivity.
Qed.

Lemma without_absent (l : list JsValue) (s : string) :
  includesString l s = false -> withoutString l s = l.
Proof.
  unfold includesString, withoutString. induction l as [|v l IH]; simpl; [reflexivity|].
  intros H. apply orb_false_iff in H as [Hv Hl]. rewrite Hv. simpl.
  f_equal. apply IH. exact Hl.
Qed.

(** [X16] Clicking an option of a select.  The emitted value is always an
    array; the clicked option's membership is flipped and every other
    option's is unchanged; a value that is not an array counts as no
    selection; and clicking an option that was not selected twice gives the
    selection back. *)
Theorem select_click_toggles (value : JsValue) (optionValue : string) :
  selectClick value optionValue
  = JsArray (arrayOrEmpty (selectClick value optionValue))
  /\ includesString (arrayOrEmpty (selectClick value optionValue)) optionValue
     = negb (includesString (arrayOrEmpty value) optionValue)
  /\ (forall other,
        other <> optionValue ->
        includesString (arrayOrEmpty (selectClick value optionValue)) other
        = includesString (arrayOrEmpty value) other)
  /\ (isArray value = false ->
      selectClick value optionValue = JsArray [JsString optionValue])
  /\ (includesString (arrayOrEmpty value) optionValue = false ->
      selectClick (selectClick value optionValue) optionValue
      = JsArray (arrayOrEmpty value)).
Proof.
  unfold selectClick.
  destruct (includesString (arrayOrEmpty value) optionValue) eqn:Hinc;
    cbn [arrayOrEmpty]; (split; [reflexivity|]); (split; [|split; [|split]]).
  - rewrite values_without_includes, String.eqb_refl. apply andb_false_r.
  - intros other Hne. rewrite values_without_includes.
    apply String.eqb_neq in Hne. rewrite Hne. apply andb_true_r.
  - intros Harr. destruct value; simpl in *; discriminate.
  - discriminate.
  - rewrite values_app_includes, String.eqb_refl. apply orb_true_r.
  - intros other Hne. rewrite values_app_includes.
    assert (E : (optionValue =? other)%string = false).
    { apply String.eqb_neq. congruence. }
    rewrite E. apply orb_false_r.
  - intros Harr. destruct value; simpl in *; try discriminate; reflexivity.
  - intros _. rewrite values_app_includes, String.eqb_refl, orb_true_r.
    unfold withoutString. rewrite List.filter_app. simpl.
    rewrite String.eqb_refl. simpl. rewrite app_nil_r.
    f_equal. apply (without_absent _ _ Hinc).
Qed.

Lemma select_click_toggles_witness :
  selectClick (selectClick (JsArray [JsString "open"]) "closed") "closed"
  = JsArray [JsString "open"].
Proof.
  apply (select_click_toggles (JsArray [JsString "open"]) "closed").
  reflexivity.
Defined.

(** A multiselect emits the empty array when nothing is chosen and
    otherwise toggles the chosen option exactly as a select does. *)
Lemma multiselect_change (value : JsValue) (selected : string) :
  multiselectChange value EmptyString = JsArray []
  /\ (selected <> EmptyString ->
      multiselectChange value selected = selectClick value selected).
Proof.
  split; [reflexivity|]. intros Hne. unfold multiselectChange, selectClick.
  apply String.eqb_neq in Hne. rewrite Hne.
  destruct (includesString (arrayOrEmpty value) selected); reflexivity.
Qed.

Lemma multiselect_change_witness :
  multiselectChange (JsArray [JsString "a"]) "b"
  = selectClick (JsArray [JsString "a"]) "b".
Proof.
  apply (multiselect_change (JsArray [JsString "a"]) "b"). discriminate.
Defined.

(** [X17] Selections and the badge.  For a filter whose operator is not
    [today]: after selecting an option that was not selected the filter
    counts as active; after emptying a multiselect, or after deselecting
    the only selected option, it does not. *)
Theorem selection_counts (f : ActiveFilter) (value : JsValue) (optionValue : string) :
  af_operator f <> Some OpToday ->
  (includesString (arrayOrEmpty value) optionValue = false ->
   countsAsActive (withValue f (selectClick value optionValue)) = true)
  /\ countsAsActive (withValue f (multiselectChange value EmptyString)) = false
  /\ countsAsActive
       (withValue f (selectClick (JsArray [JsString optionValue]) optionValue))
     = false.
Proof.
  intros Hop. unfold countsAsActive, isToday. cbn [af_operator af_value withValue].
  rewrite bool_decide_eq_false_2 by exact Hop.
  split; [|split].
  - intros Hinc. unfold selectClick. rewrite Hinc.
    destruct (arrayOrEmpty value); reflexivity.
  - reflexivity.
  - unfold selectClick. simpl. rewrite String.eqb_refl. reflexivity.
Qed.

Lemma selection_counts_witness :
  countsAsActive
    (withValue ToolbarSamples.statusFilter
       (selectClick (JsArray [JsString "open"]) "closed")) = true.
Proof.
  apply (selection_counts ToolbarSamples.statusFilter
           (JsArray [JsString "open"]) "closed"); [discriminate | reflexivity].
Defined.





(** [X19] Ranges and the badge.  For a filter whose operator is not
    [today] and whose value is still falsy (as after adding it), after
    entering a minimum and a maximum the filter counts as active exactly
    when one of the two bounds is a number other than 0: a range of blanks
    and zeros does not count. *)
Theorem range_counts (f : ActiveFilter) (value : JsValue) (lo hi : option Z) :
  af_operator f <> Some OpToday ->
  truthy value = false ->
  countsAsActive (withValue f (minChange value lo)) = nonZero lo
  /\ countsAsActive (withValue f (maxChange (minChange value lo) hi))
     = nonZero lo || nonZero hi.
Proof.
  intros Hop Hfalsy. unfold countsAsActive, isToday.
  cbn [af_operator af_value withValue].
  rewrite bool_decide_eq_false_2 by exact Hop.
  assert (Hr : numberRangeValue value
               = JsObject [("min", JsString EmptyString);
                           ("max", JsString EmptyString)]).
  { unfold numberRangeValue, Js.or. rewrite Hfalsy. reflexivity. }
  unfold minChange, maxChange. rewrite Hr.
  destruct lo as [lo|], hi as [hi|]; simpl;
    rewrite ?ToolbarFacts.or_truthy; simpl;
    repeat match goal with
           | |- context [(?n =? 0)%Z] => destruct (n =? 0)%Z
           end; split; reflexivity.
Qed.

Lemma range_counts_witness :
  countsAsActive
    (withValue ToolbarSamples.ageFilter
       (minChange (JsString EmptyString) (Some 0%Z))) = false
  /\ countsAsActive
       (withValue ToolbarSamples.ageFilter
          (maxChange (minChange (JsString EmptyString) (Some 0%Z)) (Some 7%Z)))
     = true.
Proof.
  destruct (range_counts ToolbarSamples.ageFilter (JsString EmptyString)
              (Some 0%Z) (Some 7%Z)) as (H1 & H2);
    [discriminate | reflexivity |].
  split; [exact H1 | exact H2].
Defined.

(** [X20] Enter-to-apply.  The renderer shows an input that runs the
    toolbar's Apply on Enter exactly for the definitions of type text,
    number and numberrange, the types whose edits the toolbar tracks as
    pending text filters, and only when the operator is neither [today] nor
    [exists]. *)
Theorem enter_key_inputs (filterDef : AvailableFilter)
    (operator : option FilterOperator) :
  hasEnterKey (control filterDef operator) = true
  <-> isTextBased (fd_type filterDef) = true
      /\ operator <> Some OpToday /\ operator <> Some OpExists.
Proof.
  unfold control, isToday, sameOperator.
  destruct (decide (operator = Some OpToday)) as [-> | Ht].
  - simpl. split; [discriminate | intros (_ & H & _); contradiction].
  - rewrite (bool_decide_eq_false_2 _ Ht).
    destruct (decide (operator = Some OpExists)) as [-> | He].
    + simpl. split; [discriminate | intros (_ & _ & H); contradiction].
    + rewrite (bool_decide_eq_false_2 _ He).
      destruct (fd_type filterDef); simpl; split;
        try discriminate; try (intros (H & _); discriminate H);
        intros _; repeat split; assumption.
Qed.

End FieldRendererFacts.

(** * Further properties of the filter controller *)

Module ControllerMore.
Import Controller ControllerHelpers ControllerSamples ControllerFacts.

Lemma in_filterIds (config : FilterControllerConfig) (x : string) :
  x ∈ filterIds config <-> In x (List.map rf_filterId (representedFilters config)).
Proof. unfold filterIds. rewrite elem_of_list_to_set, list_elem_of_In. reflexivity. Qed.

Lemma others_outside (config : FilterControllerConfig)
    (connection : FilterControllerConnection) (af : ActiveFilter) :
  In af (otherFilters config connection) ->
  In af (activeFilters connection) /\ af_filterId af ∉ filterIds config.
Proof.
  unfold otherFilters. intros H. apply filter_In in H as [Hin H].
  split; [exact Hin|]. apply negb_true_iff in H.
  apply bool_decide_eq_false_1 in H. exact H.
Qed.

Lemma imap_filterId (af : ActiveFilter) (l : list RepresentedFilter)
    (f : nat -> RepresentedFilter -> ActiveFilter) :
  (forall i rf, af_filterId (f i rf) = rf_filterId rf) ->
  In af (imap f l) -> In (af_filterId af) (List.map rf_filterId l).
Proof.
  revert f. induction l as [|rf l IH]; intros f Hf; simpl; [auto|].
  intros [<- | Hin].
  - left. symmetry. apply Hf.
  - right. apply (IH (f ∘ S)); [|exact Hin]. intros i rf'. apply Hf.
Qed.

Lemma new_inside (now : Z) (config : FilterControllerConfig) (af : ActiveFilter) :
  In af (imap (newFilter now) (representedFilters config)) ->
  af_filterId af ∈ filterIds config.
Proof.
  intros H. apply in_filterIds.
  apply (imap_filterId af _ (newFilter now)); [reflexivity | exact H].
Qed.

Lemma matches_filterId (rf : RepresentedFilter) (af : ActiveFilter) :
  matches rf af = true -> af_filterId af = rf_filterId rf.
Proof.
  unfold matches. intros H. apply andb_true_iff in H as [H _].
  apply andb_true_iff in H as [H _]. apply String.eqb_eq in H. exact H.
Qed.

Lemma isActive_spec (config : FilterControllerConfig)
    (connection : FilterControllerConnection) :
  isActive config connection = true
  <-> exists rf af, In rf (representedFilters config)
                    /\ In af (activeFilters connection)
                    /\ matches rf af = true.
Proof.
  unfold isActive. split.
  - destruct (length (representedFilters config) =? 0)%nat; [discriminate|].
    intros H. apply existsb_exists in H as (rf & Hrf & H).
    apply existsb_exists in H as (af & Haf & H). eauto.
  - intros (rf & af & Hrf & Haf & H).
    destruct (representedFilters config) as [|r l] eqn:E; [contradiction|].
    simpl Nat.eqb. cbv iota. apply existsb_exists. exists rf.
    split; [exact Hrf|]. apply existsb_exists. eauto.
Qed.

Lemma inactive_outside (config : FilterControllerConfig) (l : list ActiveFilter) :
  (forall af, In af l -> af_filterId af ∉ filterIds config) ->
  isActive config {| activeFilters := l |} = false.
Proof.
  intros H. apply not_true_is_false. intros Hact.
  apply isActive_spec in Hact as (rf & af & Hrf & Haf & Hm).
  apply (H af Haf). apply in_filterIds.
  rewrite (matches_filterId rf af Hm). apply in_map. exact Hrf.
Qed.

Lemma others_fixed (config : FilterControllerConfig) (l : list ActiveFilter) :
  (forall af, In af l -> af_filterId af ∉ filterIds config) ->
  otherFilters config {| activeFilters := l |} = l.
Proof.
  intros H. unfold otherFilters. cbn [activeFilters].
  induction l as [|af l IH]; simpl; [reflexivity|].
  rewrite bool_decide_eq_false_2 by (apply H; simpl; auto). simpl.
  f_equal. apply IH. intros af' Hin. apply H. simpl. auto.
Qed.

Lemma filter_sublist {A} (f : A -> bool) (l : list A) :
  sublist (List.filter f l) l.
Proof.
  induction l as [|a l IH]; simpl; [constructor|].
  destruct (f a); [apply sublist_skip | apply sublist_cons]; exact IH.
Qed.

Lemma removed_inactive (config : FilterControllerConfig)
    (connection : FilterControllerConnection) :
  isActive config {| activeFilters := otherFilters config connection |} = false.
Proof.
  apply inactive_outside. intros af Hin.
  apply (others_outside config connection af Hin).
Qed.

(** [X21] Removing a controller's filters.  [removeFilters] makes one
    [onFilterChange] invocation; the list it passes holds no filter of a
    represented definition and every other applied filter, in the same
    order; against that list the controller is not active; and removing
    again passes the same list. *)
Theorem remove_filters_clears (config : FilterControllerConfig)
    (connection : FilterControllerConnection) :
  exists committed,
    removeFilters config connection = [committed]
    /\ (forall x, x ∈ filterIds config -> countFor x committed = 0)
    /\ (forall x, x ∉ filterIds config ->
          countFor x committed = countFor x (activeFilters connection))
    /\ sublist committed (activeFilters connection)
    /\ isActive config {| activeFilters := committed |} = false
    /\ removeFilters config {| activeFilters := committed |} = [committed].
Proof.
  exists (otherFilters config connection).
  assert (Hout : forall af, In af (otherFilters config connection) ->
                   af_filterId af ∉ filterIds config).
  { intros af Hin. apply (others_outside config connection af Hin). }
  split; [reflexivity|]. split; [|split; [|split; [|split]]].
  - intros x Hx. unfold otherFilters. rewrite countFor_others.
    rewrite bool_decide_eq_true_2 by exact Hx. reflexivity.
  - intros x Hx. unfold otherFilters. rewrite countFor_others.
    rewrite bool_decide_eq_false_2 by exact Hx. reflexivity.
  - apply filter_sublist.
  - apply removed_inactive.
  - unfold removeFilters. rewrite (others_fixed config _ Hout). reflexivity.
Qed.

Lemma applied_active (now : Z) (config : FilterControllerConfig)
    (l : list ActiveFilter) :
  representedFilters config <> [] ->
  isActive config
    {| activeFilters := l ++ imap (newFilter now) (representedFilters config) |}
  = true.
Proof.
  intros Hne. apply isActive_spec.
  destruct (representedFilters config) as [|rf rest] eqn:E; [contradiction|].
  exists rf, (newFilter now 0 rf). split; [simpl; auto|]. split.
  - cbn [activeFilters]. apply in_or_app. right. simpl. auto.
  - apply matches_newFilter.
Qed.

(** [X22] Toggling.  For a controller with at least one represented
    filter, [toggleFilters] makes one [onFilterChange] invocation and
    flips [isActive]: against the list it passes the controller is active
    exactly when it was not before.  A controller that represents nothing
    is never active, and its toggle passes the applied list unchanged. *)
Theorem toggle_flips (now : Z) (config : FilterControllerConfig)
    (connection : FilterControllerConnection) :
  (representedFilters config <> [] ->
   exists committed,
     toggleFilters now config connection = [committed]
     /\ isActive config {| activeFilters := committed |}
        = negb (isActive config connection))
  /\ (representedFilters config = [] ->
      isActive config connection = false
      /\ toggleFilters now config connection = [activeFilters connection]).
Proof.
  split.
  - intros Hne. unfold toggleFilters.
    destruct (isActive config connection) eqn:Hact.
    + eexists. split; [reflexivity|]. apply removed_inactive.
    + eexists. split; [reflexivity|]. apply applied_active. exact Hne.
  - intros Hnil.
    assert (Hact : isActive config connection = false).
    { unfold isActive. rewrite Hnil. reflexivity. }
    split; [exact Hact|]. unfold toggleFilters. rewrite Hact.
    unfold applyFilters. rewrite Hnil. simpl. rewrite app_nil_r.
    destruct connection as [l]. rewrite others_fixed; [reflexivity|].
    intros af _. rewrite in_filterIds, Hnil. simpl. tauto.
Qed.

Lemma toggle_flips_witness :
  isActive openTab appliedSample = false
  /\ exists committed,
       toggleFilters 1700000000000 openTab appliedSample = [committed]
       /\ isActive openTab {| activeFilters := committed |} = true.
Proof.
  split; [reflexivity|].
  destruct (toggle_flips 1700000000000 openTab appliedSample) as [H _].
  destruct H as (committed & Hc & Ha); [discriminate|].
  exists committed. split; [exact Hc | exact Ha].
Defined.

Lemma others_of_applied (now : Z) (config : FilterControllerConfig)
    (connection : FilterControllerConnection) :
  otherFilters config
    {| activeFilters := otherFilters config connection
                        ++ imap (newFilter now) (representedFilters config) |}
  = otherFilters config connection.
Proof.
  unfold otherFilters at 1. cbn [activeFilters]. rewrite List.filter_app.
  assert (H1 : List.filter
                 (fun af => negb (bool_decide (af_filterId af ∈ filterIds config)))
                 (otherFilters config connection)
               = otherFilters config connection).
  { apply (others_fixed config (otherFilters config connection)).
    intros af Hin. apply (others_outside config connection af Hin). }
  assert (H2 : List.filter
                 (fun af => negb (bool_decide (af_filterId af ∈ filterIds config)))
                 (imap (newFilter now) (representedFilters config)) = []).
  { assert (Hall : forall af,
              In af (imap (newFilter now) (representedFilters config)) ->
              af_filterId af ∈ filterIds config)
      by (intros af; apply new_inside).
    induction (imap (newFilter now) (representedFilters config)) as [|af l IH];
      simpl; [reflexivity|].
    rewrite bool_decide_eq_true_2 by (apply Hall; simpl; auto). simpl.
    apply IH. intros af' Hin. apply Hall. simpl. auto. }
  rewrite H1, H2. apply app_nil_r.
Qed.

Lemma triples_of_new (now now' : Z) (l : list RepresentedFilter) :
  List.map tripleOf (imap (newFilter now) l)
  = List.map tripleOf (imap (newFilter now') l).
Proof.
  assert (H : forall (f f' : nat -> RepresentedFilter -> ActiveFilter),
            (forall i rf, tripleOf (f i rf) = tripleOf (f' i rf)) ->
            List.map tripleOf (imap f l) = List.map tripleOf (imap f' l)).
  { induction l as [|rf l IH]; intros f f' Hf; simpl; [reflexivity|].
    rewrite Hf. f_equal. apply IH. intros i rf'. apply Hf. }
  apply H. reflexivity.
Qed.

(** [X23] Applying twice.  Applying a controller's filters to the list it
    has just committed changes nothing but the fresh identities: at the
    same clock value the very same list is passed again, and at any other
    clock value a list with the same definitions, operators and values in
    the same order. *)
Theorem apply_twice (now now' : Z) (config : FilterControllerConfig)
    (connection : FilterControllerConnection) :
  exists committed committed',
    applyFilters now config connection = [committed]
    /\ applyFilters now config {| activeFilters := committed |} = [committed]
    /\ applyFilters now' config {| activeFilters := committed |} = [committed']
    /\ List.map tripleOf committed' = List.map tripleOf committed.
Proof.
  eexists _, _. split; [reflexivity|]. split; [|split; [reflexivity|]].
  - unfold applyFilters. rewrite others_of_applied. reflexivity.
  - rewrite others_of_applied. rewrite !List.map_app. f_equal.
    apply triples_of_new.
Qed.

Lemma in_foldl_ids (x : string) (rfs : list RepresentedFilter) (acc : gset string) :
  x ∈ foldl (fun ids rf => ids ∪ {[ rf_filterId rf ]}) acc rfs
  <-> x ∈ acc \/ In x (List.map rf_filterId rfs).
Proof.
  revert acc. induction rfs as [|rf rfs IH]; intros acc; simpl.
  - tauto.
  - rewrite IH. rewrite elem_of_union, elem_of_singleton.
    split; [intros [[H|H]|H] | intros [H|[H|H]]]; auto.
Qed.

Lemma in_represented_ids (controllers : list FilterControllerConfig) (x : string) :
  x ∈ getRepresentedFilterIds controllers
  <-> exists controller, In controller controllers /\ x ∈ filterIds controller.
Proof.
  unfold getRepresentedFilterIds.
  assert (H : forall acc : gset string,
            x ∈ foldl (fun ids controller =>
                         foldl (fun ids rf => ids ∪ {[ rf_filterId rf ]})
                               ids (representedFilters controller))
                      acc controllers
            <-> x ∈ acc \/ exists controller,
                  In controller controllers /\ x ∈ filterIds controller).
  { induction controllers as [|c cs IH]; intros acc; simpl.
    - split; [auto | intros [H | (c & [] & _)]; exact H].
    - rewrite IH, in_foldl_ids. split.
      + intros [[H|H]|(c' & Hin & Hx)]; [auto | |].
        * right. exists c. split; [auto|]. apply in_filterIds. exact H.
        * right. exists c'. auto.
      + intros [H|(c' & [<-|Hin] & Hx)]; [auto | |].
        * left. right. apply in_filterIds. exact Hx.
        * right. exists c'. auto. }
  rewrite H. split; [intros [Hx | Hx]; [|exact Hx] | auto].
  apply not_elem_of_empty in Hx. contradiction.
Qed.

(** [X24] The represented definitions.  A definition id is in the set
    computed by [getRepresentedFilterIds] exactly when one of the
    controllers represents a filter for it; the set is empty for no
    controllers, and for one controller it is the set [applyFilters] and
    [removeFilters] clear. *)
Theorem represented_ids (controllers : list FilterControllerConfig) :
  (forall x,
      x ∈ getRepresentedFilterIds controllers
      <-> exists controller rf,
            In controller controllers /\ In rf (representedFilters controller)
            /\ rf_filterId rf = x)
  /\ getRepresentedFilterIds [] = ∅
  /\ (forall config, getRepresentedFilterIds [config] = filterIds config).
Proof.
  split; [|split; [reflexivity|]].
  - intros x. rewrite in_represented_ids. split.
    + intros (c & Hc & Hx). apply in_filterIds in Hx.
      apply in_map_iff in Hx as (rf & Hid & Hrf). exists c, rf. auto.
    + intros (c & rf & Hc & Hrf & Hid). exists c. split; [exact Hc|].
      apply in_filterIds. rewrite <- Hid. apply in_map. exact Hrf.
  - intros config. apply set_eq. intros x. rewrite in_represented_ids. split.
    + intros (c & [<-|[]] & Hx). exact Hx.
    + intros Hx. exists config. split; [simpl; auto | exact Hx].
Qed.

Lemma in_foldl_active (x : string) (afs : list ActiveFilter)
    (rfs : list RepresentedFilter) (acc : gset string) :
  x ∈ foldl (fun ids rf => if existsb (matches rf) afs
                           then ids ∪ {[ rf_filterId rf ]} else ids) acc rfs
  <-> x ∈ acc \/ exists rf, In rf rfs /\ rf_filterId rf = x
                             /\ existsb (matches rf) afs = true.
Proof.
  revert acc. induction rfs as [|rf rfs IH]; intros acc; simpl.
  - split; [auto | intros [H | (rf & [] & _)]; exact H].
  - rewrite IH. destruct (existsb (matches rf) afs) eqn:E.
    + rewrite elem_of_union, elem_of_singleton. split.
      * intros [[H|H]|(rf' & Hin & Hx & Hm)]; [auto | |].
        -- right. exists rf. auto.
        -- right. exists rf'. auto.
      * intros [H|(rf' & [<-|Hin] & Hx & Hm)]; [auto | |].
        -- left. right. auto.
        -- right. exists rf'. auto.
    + split.
      * intros [H|(rf' & Hin & Hx & Hm)]; [auto|]. right. exists rf'. auto.
      * intros [H|(rf' & [<-|Hin] & Hx & Hm)]; [auto | congruence |].
        right. exists rf'. auto.
Qed.

Lemma in_active_ids (controllers : list FilterControllerConfig)
    (afs : list ActiveFilter) (x : string) :
  x ∈ getActiveControllerFilterIds controllers afs
  <-> exists controller rf,
        In controller controllers /\ In rf (representedFilters controller)
        /\ rf_filterId rf = x /\ existsb (matches rf) afs = true.
Proof.
  unfold getActiveControllerFilterIds.
  assert (H : forall acc : gset string,
            x ∈ foldl (fun ids controller =>
                         foldl (fun ids rf =>
                                  if existsb (matches rf) afs
                                  then ids ∪ {[ rf_filterId rf ]} else ids)
                               ids (representedFilters controller))
                      acc controllers
            <-> x ∈ acc \/ exists controller rf,
                  In controller controllers /\ In rf (representedFilters controller)
                  /\ rf_filterId rf = x /\ existsb (matches rf) afs = true).
  { induction controllers as [|c cs IH]; intros acc; simpl.
    - split; [auto | intros [H | (c & rf & [] & _)]; exact H].
    - rewrite IH, in_foldl_active. split.
      + intros [[H|(rf & Hin & Hx & Hm)]|(c' & rf & Hc & Hrest)]; [auto | |].
        * right. exists c, rf. auto.
        * right. exists c', rf. auto.
      + intros [H|(c' & rf & [<-|Hc] & Hrest)]; [auto | |].
        * left. right. exists rf. exact Hrest.
        * right. exists c', rf. auto. }
  rewrite H. split; [intros [Hx | Hx]; [|exact Hx] | auto].
  apply not_elem_of_empty in Hx. contradiction.
Qed.

(** [X25] The active definitions.  A definition id is in the set computed
    by [getActiveControllerFilterIds] exactly when some controller
    represents, for it, a filter that an applied filter matches on
    definition, operator and serialized value.  The set is included in the
    represented set, it is empty when no filter is applied, and a
    controller is active exactly when the set computed for it alone is not
    empty. *)
Theorem active_ids (controllers : list FilterControllerConfig)
    (afs : list ActiveFilter) :
  (forall x,
      x ∈ getActiveControllerFilterIds controllers afs
      <-> exists controller rf,
            In controller controllers /\ In rf (representedFilters controller)
            /\ rf_filterId rf = x /\ existsb (matches rf) afs = true)
  /\ getActiveControllerFilterIds controllers afs
     ⊆ getRepresentedFilterIds controllers
  /\ getActiveControllerFilterIds controllers [] = ∅
  /\ (forall config,
        isActive config {| activeFilters := afs |} = true
        <-> exists x, x ∈ getActiveControllerFilterIds [config] afs).
Proof.
  split; [intros x; apply in_active_ids|]. split; [|split].
  - intros x Hx. apply in_active_ids in Hx as (c & rf & Hc & Hrf & Hid & _).
    apply in_represented_ids. exists c. split; [exact Hc|].
    apply in_filterIds. rewrite <- Hid. apply in_map. exact Hrf.
  - apply set_eq. intros x. rewrite in_active_ids. split.
    + intros (c & rf & _ & _ & _ & H). discriminate H.
    + intros H. apply not_elem_of_empty in H. contradiction.
  - intros config. rewrite isActive_spec. cbn [activeFilters]. split.
    + intros (rf & af & Hrf & Haf & Hm). exists (rf_filterId rf).
      apply in_active_ids. exists config, rf.
      split; [simpl; auto|]. split; [exact Hrf|]. split; [reflexivity|].
      apply existsb_exists. eauto.
    + intros (x & Hx). apply in_active_ids in Hx as (c & rf & [<-|[]] & Hrf & _ & Hm).
      apply existsb_exists in Hm as (af & Haf & Hm). eauto.
Qed.

End ControllerMore.
